(** * The editor glue of the extension: retrying requests and colour themes

  A shallow embedding of two pieces of the TypeScript client:

  - [sendRequestWithRetry] of [editors/code/src/ctx.ts], the request
    sender that retries on the "content modified" error of the language
    server, and
  - the [ColorTheme] class with [loadThemeNamed], [loadThemeFile] and
    [mergeRuleSettings], the loader of TextMate colour rules.

  The definitions come first, the facts about them afterwards. *)

From Stdlib Require Import ZArith List String Bool Lia.
Import ListNotations.

Local Open Scope string_scope.
Local Open Scope Z_scope.

(* ===================================================================== *)
(** * Part I: definitions                                                *)
(* ===================================================================== *)

(** ** The pieces of JavaScript the code relies on *)
Module Js.

(** The values an [err.code] can hold. *)
Inductive value : Type :=
| Undefined
| Number (n : Z)
| Str (s : string).

(** [a === b] on these values: no coercion between the kinds. *)
Definition strictEq (a b : value) : bool :=
  match a, b with
  | Undefined, Undefined => true
  | Number m, Number n => Z.eqb m n
  | Str s, Str t => String.eqb s t
  | _, _ => false
  end.

(** [a !== b]. *)
Definition strictNe (a b : value) : bool := negb (strictEq a b).

(** ToInt32: reduction modulo 2^32 into the signed range. *)
Definition toInt32 (z : Z) : Z :=
  let m := z mod 2 ^ 32 in
  if m <? 2 ^ 31 then m else m - 2 ^ 32.

(** [a << b]: the shift count is taken modulo 32 and the result wraps to
    a signed 32-bit integer. *)
Definition shl (a b : Z) : Z :=
  toInt32 (Z.shiftl (toInt32 a) (Z.land b 31)).

(** [a ?? b] on an optional field: the left operand unless it is
    missing. *)
Definition nullish {A : Type} (a b : option A) : option A :=
  match a with
  | Some x => Some x
  | None => b
  end.

(** [scope.startsWith(key)]. *)
Definition startsWith (scope key : string) : bool := String.prefix key scope.

End Js.

(** ** A JavaScript [Map] with string keys

  A [Map] remembers the order in which its keys were first inserted, and
  [forEach] visits the entries in that order; setting a key that is
  already present keeps its position. The entries are therefore kept as
  an association list in insertion order. *)
Module JsMap.

Definition t (V : Type) : Type := list (string * V).

Definition empty {V : Type} : t V := [].

Fixpoint get {V : Type} (k : string) (m : t V) : option V :=
  match m with
  | [] => None
  | (k', v) :: rest => if String.eqb k' k then Some v else get k rest
  end.

Fixpoint set {V : Type} (k : string) (v : V) (m : t V) : t V :=
  match m with
  | [] => [(k, v)]
  | (k', v') :: rest =>
      if String.eqb k' k then (k', v) :: rest else (k', v') :: set k v rest
  end.

Definition keys {V : Type} (m : t V) : list string := map fst m.

(** [m.forEach((value, key) => ...)] with the state the callback updates
    threaded through. *)
Definition forEach {V S : Type} (m : t V) (f : S -> V -> string -> S) (s : S) : S :=
  fold_left (fun acc kv => f acc (snd kv) (fst kv)) m s.

(** What every [Map] satisfies: a key occurs once. *)
Definition wf {V : Type} (m : t V) : Prop := NoDup (keys m).

End JsMap.

(** ** Colour themes *)
Module Theme.

(** [interface TextMateRuleSettings]: three optional fields. *)
Record TextMateRuleSettings : Type := mkSettings {
  foreground : option string;
  background : option string;
  fontStyle : option string
}.

(** The object literal [{}]. *)
Definition noSettings : TextMateRuleSettings := mkSettings None None None.

(** The [scope] field of a rule: absent, one scope or several. *)
Inductive RuleScope : Type :=
| ScopeUndefined
| ScopeString (s : string)
| ScopeList (l : list string).

(** [interface TextMateRule]. *)
Record TextMateRule : Type := mkRule {
  scope : RuleScope;
  settings : TextMateRuleSettings
}.

(** [class ColorTheme]: its private [rules] map. *)
Record ColorTheme : Type := mkTheme {
  rules : JsMap.t TextMateRuleSettings
}.

(** [new ColorTheme()]. *)
Definition newColorTheme : ColorTheme := mkTheme JsMap.empty.

(** [mergeRuleSettings(defaultSetting, override)]; [defaultSetting] may
    be [undefined], in which case [defaultSetting?.f] is [undefined]. *)
Definition mergeRuleSettings (defaultSetting : option TextMateRuleSettings)
    (override : TextMateRuleSettings) : TextMateRuleSettings :=
  let dflt (f : TextMateRuleSettings -> option string) : option string :=
    match defaultSetting with
    | Some d => f d
    | None => None
    end in
  {| foreground := Js.nullish (foreground override) (dflt foreground);
     background := Js.nullish (background override) (dflt background);
     fontStyle := Js.nullish (fontStyle override) (dflt fontStyle) |}.

(** The scopes a rule is registered under, the conditional expression
    at the head of the loop of [fromRules]. *)
Definition scopesOf (rule : TextMateRule) : list string :=
  match scope rule with
  | ScopeUndefined => []
  | ScopeString s => [s]
  | ScopeList l => l
  end.

(** The body of the outer loop of [fromRules]: one rule added to the
    theme under construction. *)
Definition addRule (res : ColorTheme) (rule : TextMateRule) : ColorTheme :=
  fold_left
    (fun (acc : ColorTheme) (scope : string) =>
       mkTheme (JsMap.set scope (settings rule) (rules acc)))
    (scopesOf rule) res.

(** [ColorTheme.fromRules(rules)]. *)
Definition fromRules (rs : list TextMateRule) : ColorTheme :=
  fold_left addRule rs newColorTheme.

(** [theme.lookup(scopes)]. *)
Definition lookup (this : ColorTheme) (scopes : list string) : TextMateRuleSettings :=
  fold_left
    (fun (res : TextMateRuleSettings) (scope : string) =>
       JsMap.forEach (rules this)
         (fun res value key =>
            if Js.startsWith scope key
            then mergeRuleSettings (Some res) value
            else res)
         res)
    scopes noSettings.

(** The callback of [mergeFrom] on one entry of the other theme: the
    entry is merged over what the receiver holds for its key. *)
Definition mergeEntry (this : ColorTheme) (value : TextMateRuleSettings)
    (key : string) : ColorTheme :=
  let merged := mergeRuleSettings (JsMap.get key (rules this)) value in
  mkTheme (JsMap.set key merged (rules this)).

(** [this.mergeFrom(other)]; the receiver is updated in place, so the
    updated receiver is returned. *)
Definition mergeFrom (this other : ColorTheme) : ColorTheme :=
  JsMap.forEach (rules other) mergeEntry this.

(** The settings a theme stores for a scope key. *)
Definition stored (this : ColorTheme) (key : string) : option TextMateRuleSettings :=
  JsMap.get key (rules this).

(** The object [jsonc.parse] gives for a theme file, as far as
    [loadThemeFile] reads it: the optional [tokenColors] and [include]. *)
Record ThemeObject : Type := mkThemeObject {
  tokenColors : option (list TextMateRule);
  include : option (list string)
}.

(** What [loadThemeFile] takes from its surroundings: the file system
    ([readFileSync] throws on a path it cannot read, here [None]), the
    parser of [jsonc-parser] ([undefined], here [None], on a text without
    a value) and the two functions of [path]. *)
Record Host : Type := mkHost {
  readFileSync : string -> option string;
  parse : string -> option ThemeObject;
  dirname : string -> string;
  join : string -> string -> string
}.

(** [obj?.tokenColors ?? []]. *)
Definition tokenColorsOf (obj : option ThemeObject) : list TextMateRule :=
  match obj with
  | Some o => match tokenColors o with Some l => l | None => [] end
  | None => []
  end.

(** [obj?.include ?? []]. *)
Definition includeOf (obj : option ThemeObject) : list string :=
  match obj with
  | Some o => match include o with Some l => l | None => [] end
  | None => []
  end.

(** The loop of [loadThemeFile] over the includes of the file at
    [themePath]: each included file is loaded by [load] and merged into
    the theme built so far. [None] is "the bound of the recursion was
    reached", see [loadThemeFile]. *)
Definition mergeIncludes (host : Host) (load : string -> option ColorTheme)
    (themePath : string) (includes : list string) (res : option ColorTheme)
    : option ColorTheme :=
  fold_left
    (fun (acc : option ColorTheme) (include : string) =>
       match acc with
       | None => None
       | Some res =>
           let includePath := join host (dirname host themePath) include in
           match load includePath with
           | None => None
           | Some included => Some (mergeFrom res included)
           end
       end)
    includes res.

(** [loadThemeFile(themePath)]. The function follows includes without a
    guard against cycles, so the recursion is bounded by [fuel]: [None]
    is "the bound was reached", never a value of the program. *)
Fixpoint loadThemeFile (host : Host) (fuel : nat) (themePath : string)
    : option ColorTheme :=
  match fuel with
  | O => None
  | S fuel' =>
      match readFileSync host themePath with
      | None => Some newColorTheme
      | Some text =>
          let obj := parse host text in
          let res := fromRules (tokenColorsOf obj) in
          mergeIncludes host (loadThemeFile host fuel') themePath
            (includeOf obj) (Some res)
      end
  end.

End Theme.

(** ** The retrying request sender *)
Module Ctx.

Section Sender.

(** The types of the request parameter, of the cancellation token and of
    the result of a request. *)
Context {Param Token R : Type}.

(** [lc.ErrorCodes.ContentModified], a constant of the client library. *)
Variable ContentModified : Z.

(** The object a failed request is rejected with, a [ResponseError] of the
    protocol or another [Error]; [code] is [Js.Undefined] on an error
    that has none. *)
Record ResponseError : Type := mkError {
  code : Js.value;
  message : string
}.

(** How one call of [client.sendRequest] settles. *)
Inductive Settled : Type :=
| Resolved (result : R)
| Rejected (err : ResponseError).

(** The language client, seen from the sender: how the request with the
    given arguments settles when [n] requests were issued before it. The
    token is [None] for the two-argument call. *)
Record LanguageClient : Type := mkClient {
  sendRequest : string -> Param -> option Token -> nat -> Settled
}.

(** What the sender does to the outside, in the order it does it. *)
Inductive Event : Type :=
| Sent (method : string) (param : Param) (token : option Token)
| Slept (ms : Z).

(** The outside: the number of requests issued so far and the log of the
    events, oldest first. *)
Record World : Type := mkWorld {
  issued : nat;
  log : list Event
}.

Definition freshWorld : World := mkWorld 0 [].

(** What the function completes with: a returned value or a thrown one,
    either an error object caught from the client or a string. *)
Inductive Thrown : Type :=
| ThrownError (err : ResponseError)
| ThrownString (s : string).

Inductive Completion : Type :=
| Return (result : R)
| Throw (t : Thrown).

(** [await (token ? client.sendRequest(method, param, token)
                  : client.sendRequest(method, param))]. *)
Definition awaitSendRequest (client : LanguageClient) (method : string)
    (param : Param) (token : option Token) (w : World) : Settled * World :=
  (sendRequest client method param token (issued w),
   mkWorld (S (issued w)) (log w ++ [Sent method param token])).

(** [await sleep(ms)]. *)
Definition sleep (ms : Z) (w : World) : World :=
  mkWorld (issued w) (log w ++ [Slept ms]).

(** [10 * (1 << delay)]; [delay] is [null] (here [None]) for the last
    attempt, and a [null] shift count counts as 0. *)
Definition backoff (delay : option Z) : Z :=
  10 * Js.shl 1 (match delay with Some d => d | None => 0 end).

(** [delay === null]. *)
Definition isNull (delay : option Z) : bool :=
  match delay with
  | None => true
  | Some _ => false
  end.

(** The [for ... of] loop over the remaining delays, with the
    [throw 'unreachable'] that follows it. *)
Fixpoint retryLoop (client : LanguageClient) (method : string) (param : Param)
    (token : option Token) (delays : list (option Z)) (w : World)
    : Completion * World :=
  match delays with
  | [] => (Throw (ThrownString "unreachable"), w)
  | delay :: rest =>
      match awaitSendRequest client method param token w with
      | (Resolved result, w1) => (Return result, w1)
      | (Rejected err, w1) =>
          if isNull delay || Js.strictNe (code err) (Js.Number ContentModified)
          then (Throw (ThrownError err), w1)
          else retryLoop client method param token rest (sleep (backoff delay) w1)
      end
  end.

(** The array the loop runs over. *)
Definition delays : list (option Z) :=
  [Some 2; Some 4; Some 6; Some 8; Some 10; None].

(** [sendRequestWithRetry(client, method, param, token)]. *)
Definition sendRequestWithRetry (client : LanguageClient) (method : string)
    (param : Param) (token : option Token) (w : World) : Completion * World :=
  retryLoop client method param token delays w.

(** The requests and the sleeps of a log. *)
Definition requestsIn (l : list Event) : nat :=
  List.length (filter (fun e => match e with Sent _ _ _ => true | Slept _ => false end) l).

Definition sleepsIn (l : list Event) : list Z :=
  flat_map (fun e => match e with Sent _ _ _ => [] | Slept ms => [ms] end) l.

(** The events of the attempts that fail and are tried again after the
    delays [ds]: a request and the sleep that follows it, for each. *)
Definition retried (method : string) (param : Param) (token : option Token)
    (ds : list Z) : list Event :=
  flat_map (fun d => [Sent method param token; Slept (backoff (Some d))]) ds.

(** An error is of the "content modified" kind when its code is the
    constant of the library. *)
Definition isContentModified (err : ResponseError) : Prop :=
  code err = Js.Number ContentModified.

(** Attempt number [n] (from 0) after the world [w] is rejected as
    "content modified". *)
Definition rejectedAsModified (client : LanguageClient) (method : string)
    (param : Param) (token : option Token) (w : World) (n : nat) : Prop :=
  exists err, sendRequest client method param token (issued w + n)%nat = Rejected err
              /\ isContentModified err.

End Sender.

Arguments ResponseError : clear implicits.
Arguments Settled : clear implicits.
Arguments LanguageClient : clear implicits.
Arguments Event : clear implicits.
Arguments World : clear implicits.
Arguments Completion : clear implicits.

End Ctx.

(** ** Sample inputs, used where a fact is tried on a concrete case *)
Module Samples.

Import Theme.

Definition red : TextMateRuleSettings := mkSettings (Some "#ff0000") None None.
Definition onBlue : TextMateRuleSettings := mkSettings None (Some "#0000ff") (Some "italic").
Definition greenBold : TextMateRuleSettings := mkSettings (Some "#00ff00") None (Some "bold").

Definition themeA : ColorTheme :=
  fromRules [mkRule (ScopeString "comment") red; mkRule (ScopeString "keyword") greenBold].

Definition themeB : ColorTheme :=
  fromRules [mkRule (ScopeList ["comment"; "string"]) onBlue].

(** A file system with the one file [/themes/dark.json], whose include
    [./base.json] does not exist. *)
Definition darkTheme : ThemeObject :=
  mkThemeObject (Some [mkRule (ScopeString "comment") red]) (Some ["./base.json"]).

Definition host : Host :=
  {| readFileSync := fun p => if String.eqb p "/themes/dark.json" then Some "dark" else None;
     parse := fun text => if String.eqb text "dark" then Some darkTheme else None;
     dirname := fun _ => "/themes";
     join := fun dir file => dir ++ "/" ++ file |}.

(** Language clients for requests without a parameter worth a name, with
    results that are strings. [-32801] is the code the protocol gives to
    "content modified", [-32800] the one of a cancelled request. *)
Definition contentModified : Z := -32801.

Definition modifiedError : Ctx.ResponseError :=
  Ctx.mkError (Js.Number contentModified) "content modified".

Definition cancelledError : Ctx.ResponseError :=
  Ctx.mkError (Js.Number (-32800)) "request cancelled".

Definition alwaysModified : Ctx.LanguageClient unit unit string :=
  Ctx.mkClient (fun _ _ _ _ => Ctx.Rejected modifiedError).

Definition alwaysCancelled : Ctx.LanguageClient unit unit string :=
  Ctx.mkClient (fun _ _ _ _ => Ctx.Rejected cancelledError).

(** Two rejections as "content modified", then a result. *)
Definition modifiedTwice : Ctx.LanguageClient unit unit string :=
  Ctx.mkClient
    (fun _ _ _ n => if (n <? 2)%nat then Ctx.Rejected modifiedError
                    else Ctx.Resolved "hover text").

End Samples.

(** ** The theme of the workbench

    [ColorTheme.load] and [loadThemeNamed]: the theme files of the
    installed extensions that contribute the theme of the given name,
    with the colour customizations of the settings on top. *)
Module Workbench.

Import Theme.

(** [vscode.ExtensionKind]. *)
Inductive ExtensionKind : Type :=
| UI
| Workspace.

(** An entry of [contributes.themes] in the manifest of an extension, as
    far as it is read: [id] and [label] may be missing. *)
Record ThemeEntry : Type := mkThemeEntry {
  id : option string;
  label : option string;
  path : string
}.

(** [packageJSON.contributes], when the manifest has one, with its
    [themes] when there are some. *)
Record Contributes : Type := mkContributes {
  themes : option (list ThemeEntry)
}.

(** [vscode.Extension], as far as it is read. *)
Record Extension : Type := mkExtension {
  extensionKind : ExtensionKind;
  contributes : option Contributes;
  extensionPath : string
}.

(** A token colour customization object of the settings, with its
    [textMateRules] when it has some. *)
Record Customizations : Type := mkCustomizations {
  textMateRules : option (list TextMateRule)
}.

(** What the functions read from the editor: the setting
    [workbench.colorTheme], the installed extensions, the setting
    [editor.tokenColorCustomizations] and what
    [getConfiguration('editor.tokenColorCustomizations').get(key)]
    answers. *)
Record Vscode : Type := mkVscode {
  colorTheme : Js.value;
  all : list Extension;
  tokenColorCustomizations : option Customizations;
  tokenColorCustomizationsGet : string -> option Customizations
}.

(** [a || b] on optional strings: a missing or empty left operand is
    falsy. *)
Definition orElse (a b : option string) : option string :=
  match a with
  | Some s => if String.eqb s "" then b else Some s
  | None => b
  end.

(** The inner function [isTheme]; an object and an array are truthy. *)
Definition isTheme (extension : Extension) : bool :=
  match extensionKind extension, contributes extension with
  | UI, Some c => match themes c with Some _ => true | None => false end
  | _, _ => false
  end.

(** [ext.packageJSON.contributes.themes] of an extension that passed
    [isTheme]. *)
Definition themesOf (ext : Extension) : list ThemeEntry :=
  match contributes ext with
  | Some c => match themes c with Some l => l | None => [] end
  | None => []
  end.

(** [(it.id || it.label) === themeName]. *)
Definition isNamed (themeName : string) (it : ThemeEntry) : bool :=
  match orElse (id it) (label it) with
  | Some s => String.eqb s themeName
  | None => false
  end.

(** The constant [themePaths] of [loadThemeNamed]. *)
Definition themePaths (host : Host) (vscode : Vscode) (themeName : string)
    : list string :=
  flat_map
    (fun ext =>
       map (fun it => join host (extensionPath ext) (path it))
         (filter (isNamed themeName) (themesOf ext)))
    (filter isTheme (all vscode)).

(** [customizations?.textMateRules ?? []]. *)
Definition textMateRulesOf (customizations : option Customizations)
    : list TextMateRule :=
  match customizations with
  | Some c => match textMateRules c with Some l => l | None => [] end
  | None => []
  end.

(** The first loop of [loadThemeNamed]: every theme file is loaded and
    merged into the theme built so far. [None] is "the bound of the
    recursion of [loadThemeFile] was reached". *)
Definition mergeThemeFiles (host : Host) (fuel : nat) (paths : list string)
    (res : option ColorTheme) : option ColorTheme :=
  fold_left
    (fun (acc : option ColorTheme) (themePath : string) =>
       match acc with
       | None => None
       | Some res =>
           match loadThemeFile host fuel themePath with
           | None => None
           | Some loaded => Some (mergeFrom res loaded)
           end
       end)
    paths res.

(** [loadThemeNamed(themeName)]. *)
Definition loadThemeNamed (host : Host) (vscode : Vscode) (fuel : nat)
    (themeName : string) : option ColorTheme :=
  match mergeThemeFiles host fuel (themePaths host vscode themeName)
          (Some newColorTheme) with
  | None => None
  | Some res =>
      let global_customizations := tokenColorCustomizations vscode in
      let res := mergeFrom res (fromRules (textMateRulesOf global_customizations)) in
      let theme_customizations :=
        tokenColorCustomizationsGet vscode ("[" ++ themeName ++ "]") in
      Some (mergeFrom res (fromRules (textMateRulesOf theme_customizations)))
  end.

(** [ColorTheme.load()]. *)
Definition load (host : Host) (vscode : Vscode) (fuel : nat) : option ColorTheme :=
  match colorTheme vscode with
  | Js.Str themeName => loadThemeNamed host vscode fuel themeName
  | _ => Some newColorTheme
  end.

End Workbench.

(** ** More sample inputs *)
Module MoreSamples.

Import Theme Workbench.

(** A file system with three theme files: [/ext/dark.json] includes
    [/ext/base.json], and [/ext/loop.json] includes itself. *)
Definition darkObject : ThemeObject :=
  mkThemeObject (Some [mkRule (ScopeString "comment") Samples.red])
    (Some ["base.json"]).

Definition baseObject : ThemeObject :=
  mkThemeObject
    (Some [mkRule (ScopeList ["comment"; "string"]) Samples.onBlue]) None.

Definition loopObject : ThemeObject :=
  mkThemeObject (Some [mkRule (ScopeString "keyword") Samples.greenBold])
    (Some ["loop.json"]).

Definition files : Host :=
  {| readFileSync := fun p =>
       if String.eqb p "/ext/dark.json" then Some "dark"
       else if String.eqb p "/ext/base.json" then Some "base"
       else if String.eqb p "/ext/loop.json" then Some "loop"
       else None;
     parse := fun text =>
       if String.eqb text "dark" then Some darkObject
       else if String.eqb text "base" then Some baseObject
       else if String.eqb text "loop" then Some loopObject
       else None;
     dirname := fun _ => "/ext";
     join := fun dir file => dir ++ "/" ++ file |}.

(** An editor with the theme "Dark" of a UI extension, the same theme in
    a workspace extension, and customizations of both kinds. *)
Definition darkExtension : Extension :=
  mkExtension UI
    (Some (mkContributes (Some [mkThemeEntry None (Some "Dark") "dark.json"])))
    "/ext".

Definition remoteExtension : Extension :=
  mkExtension Workspace
    (Some (mkContributes (Some [mkThemeEntry (Some "Dark") None "loop.json"])))
    "/ext".

Definition editor : Vscode :=
  {| colorTheme := Js.Str "Dark";
     all := [darkExtension; remoteExtension];
     tokenColorCustomizations :=
       Some (mkCustomizations
               (Some [mkRule (ScopeString "comment") Samples.greenBold]));
     tokenColorCustomizationsGet := fun key =>
       if String.eqb key "[Dark]"
       then Some (mkCustomizations
                    (Some [mkRule (ScopeString "comment")
                             (mkSettings None None (Some "underline"))]))
       else None |}.

(** The same editor with its extensions all of the workspace kind. *)
Definition remoteEditor : Vscode :=
  {| colorTheme := Js.Str "Dark";
     all := [remoteExtension];
     tokenColorCustomizations := tokenColorCustomizations editor;
     tokenColorCustomizationsGet := tokenColorCustomizationsGet editor |}.

End MoreSamples.

(* ===================================================================== *)
(** * Part II: facts                                                     *)
(* ===================================================================== *)

(** ** Facts about [JsMap] *)
Module JsMapFacts.

Import JsMap.

Section Facts.

Context {V : Type}.
Implicit Types (m : t V) (k : string) (v : V).

Lemma get_set_same m k v : get k (set k v m) = Some v.
Proof.
  induction m as [|[k' v'] rest IH]; simpl.
  - now rewrite String.eqb_refl.
  - destruct (String.eqb k' k) eqn:E; simpl; rewrite E; auto.
Qed.

Lemma get_set_other m k k' v : k' <> k -> get k (set k' v m) = get k m.
Proof.
  intros Hne. induction m as [|[k0 v0] rest IH]; simpl.
  - apply String.eqb_neq in Hne. now rewrite Hne.
  - destruct (String.eqb k0 k') eqn:E; simpl.
    + apply String.eqb_eq in E. subst k0.
      apply String.eqb_neq in Hne. now rewrite Hne.
    + now rewrite IH.
Qed.

Lemma get_None m k : get k m = None <-> ~ In k (keys m).
Proof.
  induction m as [|[k0 v0] rest IH]; simpl.
  - tauto.
  - destruct (String.eqb_spec k0 k) as [->|Hne].
    + split; [discriminate | intros H; exfalso; apply H; now left].
    + rewrite IH. tauto.
Qed.

Lemma In_keys m k : In k (keys m) <-> get k m <> None.
Proof.
  induction m as [|[k0 v0] rest IH]; simpl.
  - split; [tauto | congruence].
  - destruct (String.eqb_spec k0 k) as [->|Hne].
    + split; [discriminate | now left].
    + rewrite <- IH. tauto.
Qed.

Lemma get_Some_In m k v : get k m = Some v -> In (k, v) m.
Proof.
  induction m as [|[k0 v0] rest IH]; simpl; [discriminate|].
  destruct (String.eqb_spec k0 k) as [->|Hne].
  - intros [= ->]. now left.
  - intros H. right. auto.
Qed.

Lemma In_keys_set m k k' v : In k (keys (set k' v m)) <-> k = k' \/ In k (keys m).
Proof.
  induction m as [|[k0 v0] rest IH]; simpl.
  - intuition.
  - destruct (String.eqb_spec k0 k') as [->|Hne]; simpl.
    + intuition.
    + rewrite IH. intuition.
Qed.

Lemma wf_set m k v : wf m -> wf (set k v m).
Proof.
  unfold wf. induction m as [|[k0 v0] rest IH]; simpl; intros Hnd.
  - constructor; [simpl; tauto | constructor].
  - inversion Hnd as [|? ? Hnotin Hrest]; subst.
    destruct (String.eqb_spec k0 k) as [->|Hne]; simpl.
    + now constructor.
    + constructor; [|now apply IH].
      intros Hin. apply (In_keys_set rest k0 k v) in Hin.
      destruct Hin as [->|Hin]; [now apply Hne | now apply Hnotin].
Qed.

Lemma wf_empty : wf (@empty V).
Proof. constructor. Qed.

End Facts.

End JsMapFacts.

(** ** Facts about colour themes *)
Module ThemeFacts.

Import Theme.
Import JsMapFacts.

Implicit Types (this other : ColorTheme) (rule : TextMateRule)
  (rs : list TextMateRule) (key : string) (value : TextMateRuleSettings).

(** *** [mergeRuleSettings] *)

Lemma mergeRuleSettings_undefined value : mergeRuleSettings None value = value.
Proof. now destruct value as [[?|] [?|] [?|]]. Qed.

Lemma mergeRuleSettings_empty value : mergeRuleSettings (Some noSettings) value = value.
Proof. now destruct value as [[?|] [?|] [?|]]. Qed.

(** *** [fromRules] *)

(** One pass of the inner loop: the listed scopes get the settings, the
    other keys keep what they had. *)
Lemma stored_setAll (l : list string) value this key :
  stored
    (fold_left (fun acc scope => mkTheme (JsMap.set scope value (rules acc))) l this)
    key
  = if existsb (String.eqb key) l then Some value else stored this key.
Proof.
  revert this. induction l as [|scope l IH]; intros this; simpl; [reflexivity|].
  rewrite IH. unfold stored; simpl.
  destruct (existsb (String.eqb key) l); [now rewrite orb_true_r|].
  rewrite orb_false_r.
  destruct (String.eqb_spec key scope) as [->|Hne].
  - apply get_set_same.
  - apply get_set_other. congruence.
Qed.

Lemma stored_addRule this rule key :
  stored (addRule this rule) key
  = if existsb (String.eqb key) (scopesOf rule) then Some (settings rule)
    else stored this key.
Proof. apply stored_setAll. Qed.

Lemma targets_spec key (l : list string) :
  existsb (String.eqb key) l = true <-> In key l.
Proof.
  rewrite existsb_exists. split.
  - intros (x & Hin & Heq). apply String.eqb_eq in Heq. now subst.
  - intros Hin. exists key. split; [assumption | apply String.eqb_refl].
Qed.

Lemma fromRules_app rs1 rs2 :
  fromRules (rs1 ++ rs2) = fold_left addRule rs2 (fromRules rs1).
Proof. unfold fromRules. apply fold_left_app. Qed.

Lemma fromRules_snoc rs rule :
  fromRules (rs ++ [rule]) = addRule (fromRules rs) rule.
Proof. now rewrite fromRules_app. Qed.

(** Rules that do not name a key leave it as it is. *)
Lemma stored_addRules_untouched rs this key :
  (forall rule, In rule rs -> ~ In key (scopesOf rule)) ->
  stored (fold_left addRule rs this) key = stored this key.
Proof.
  revert this. induction rs as [|rule rs IH]; intros this Hno; simpl; [reflexivity|].
  rewrite IH by (intros r Hr; apply Hno; now right).
  rewrite stored_addRule.
  destruct (existsb (String.eqb key) (scopesOf rule)) eqn:E; [|reflexivity].
  apply targets_spec in E. exfalso. apply (Hno rule); [now left | assumption].
Qed.

(** The keys of a theme built from rules are the scopes the rules name. *)
Lemma keys_addRules rs this key :
  In key (JsMap.keys (rules (fold_left addRule rs this)))
  <-> In key (JsMap.keys (rules this))
      \/ exists rule, In rule rs /\ In key (scopesOf rule).
Proof.
  revert this. induction rs as [|rule rs IH]; intros this; simpl.
  - split; [now left | intros [H|(r & [] & _)]; exact H].
  - rewrite IH, !In_keys.
    fold (stored (addRule this rule) key). fold (stored this key).
    rewrite stored_addRule.
    destruct (existsb (String.eqb key) (scopesOf rule)) eqn:E.
    + apply targets_spec in E. split; [|intros _; left; discriminate].
      intros _. right. exists rule. split; [now left | assumption].
    + assert (Hno : ~ In key (scopesOf rule)).
      { rewrite <- targets_spec, E. discriminate. }
      split.
      * intros [H | (r & Hr & Hk)]; [now left|]. right. exists r. split; [now right | assumption].
      * intros [H | (r & [<-|Hr] & Hk)]; [now left | contradiction |].
        right. now exists r.
Qed.

Lemma wf_addRule this rule : JsMap.wf (rules this) -> JsMap.wf (rules (addRule this rule)).
Proof.
  unfold addRule. generalize (scopesOf rule) as l. intros l. revert this.
  induction l as [|scope l IH]; intros this Hwf; simpl; [assumption|].
  apply IH. simpl. now apply wf_set.
Qed.

Lemma wf_fromRules rs : JsMap.wf (rules (fromRules rs)).
Proof.
  unfold fromRules.
  assert (H : JsMap.wf (rules newColorTheme)) by apply wf_empty.
  revert H. generalize newColorTheme as this.
  induction rs as [|rule rs IH]; intros this Hwf; simpl; [assumption|].
  apply IH. now apply wf_addRule.
Qed.

(** *** [mergeFrom] *)

(** [mergeFrom] as the fold it is, over the entries of the other theme. *)
Local Abbreviation mergeAll l this :=
  (fold_left (fun acc kv => mergeEntry acc (snd kv) (fst kv)) l this).

Lemma mergeFrom_fold this other :
  mergeFrom this other = mergeAll (rules other) this.
Proof. reflexivity. Qed.

Lemma stored_mergeEntry_same this key value :
  stored (mergeEntry this value key) key
  = Some (mergeRuleSettings (stored this key) value).
Proof. unfold stored, mergeEntry; simpl. apply get_set_same. Qed.

Lemma stored_mergeEntry_other this key key' value :
  key' <> key -> stored (mergeEntry this value key') key = stored this key.
Proof. intros Hne. unfold stored, mergeEntry; simpl. now apply get_set_other. Qed.

Lemma stored_merge_absent (l : JsMap.t TextMateRuleSettings) this key :
  ~ In key (JsMap.keys l) ->
  stored (mergeAll l this) key = stored this key.
Proof.
  revert this. induction l as [|[k0 v0] l IH]; intros this Hno; simpl; [reflexivity|].
  simpl in Hno. rewrite IH by tauto.
  apply stored_mergeEntry_other. tauto.
Qed.

Lemma stored_merge_present (l : JsMap.t TextMateRuleSettings) this key value :
  JsMap.wf l -> JsMap.get key l = Some value ->
  stored (mergeAll l this) key
  = Some (mergeRuleSettings (stored this key) value).
Proof.
  unfold JsMap.wf. revert this.
  induction l as [|[k0 v0] l IH]; intros this Hnd Hget; simpl in *; [discriminate|].
  inversion Hnd as [|? ? Hnotin Hrest]; subst.
  destruct (String.eqb_spec k0 key) as [->|Hne].
  - injection Hget as ->.
    rewrite stored_merge_absent by assumption.
    apply stored_mergeEntry_same.
  - rewrite IH by assumption.
    now rewrite stored_mergeEntry_other.
Qed.

Lemma keys_merge (l : JsMap.t TextMateRuleSettings) this key :
  In key (JsMap.keys (rules (mergeAll l this)))
  <-> In key (JsMap.keys (rules this)) \/ In key (JsMap.keys l).
Proof.
  revert this. induction l as [|[k0 v0] l IH]; intros this; simpl; [tauto|].
  rewrite IH. unfold mergeEntry at 1; simpl. rewrite In_keys_set.
  intuition congruence.
Qed.

Lemma wf_mergeFrom this other :
  JsMap.wf (rules this) -> JsMap.wf (rules (mergeFrom this other)).
Proof.
  rewrite mergeFrom_fold. generalize (rules other) as l. intros l. revert this.
  induction l as [|kv l IH]; intros this Hwf; simpl; [assumption|].
  apply IH. unfold mergeEntry; simpl. now apply wf_set.
Qed.

Lemma mergeFrom_empty this : mergeFrom this newColorTheme = this.
Proof. reflexivity. Qed.

(** *** [loadThemeFile] *)

Lemma loadThemeFile_S host fuel themePath :
  loadThemeFile host (S fuel) themePath
  = match readFileSync host themePath with
    | None => Some newColorTheme
    | Some text =>
        mergeIncludes host (loadThemeFile host fuel) themePath
          (includeOf (parse host text))
          (Some (fromRules (tokenColorsOf (parse host text))))
    end.
Proof. reflexivity. Qed.

Lemma loadThemeFile_unreadable host fuel themePath :
  readFileSync host themePath = None ->
  loadThemeFile host (S fuel) themePath = Some newColorTheme.
Proof. intros H. now rewrite loadThemeFile_S, H. Qed.

Lemma mergeIncludes_unreadable host fuel themePath includes res :
  (forall include, In include includes ->
     readFileSync host (join host (dirname host themePath) include) = None) ->
  mergeIncludes host (loadThemeFile host (S fuel)) themePath includes (Some res)
  = Some res.
Proof.
  unfold mergeIncludes.
  induction includes as [|include includes IH]; intros Hall; cbn [fold_left];
    [reflexivity|].
  rewrite loadThemeFile_unreadable by (apply Hall; now left).
  rewrite mergeFrom_empty. apply IH. intros inc Hin. apply Hall. now right.
Qed.

(** Every theme the loader gives is a [Map]: its keys are distinct. *)
Lemma wf_mergeIncludes host load themePath includes (acc : option ColorTheme) loaded :
  (forall res, acc = Some res -> JsMap.wf (rules res)) ->
  mergeIncludes host load themePath includes acc = Some loaded ->
  JsMap.wf (rules loaded).
Proof.
  unfold mergeIncludes. revert acc.
  induction includes as [|include includes IH]; intros acc Hacc; cbn [fold_left].
  - intros H. now apply Hacc.
  - apply IH. intros res' Hres'.
    destruct acc as [res|]; [|discriminate].
    destruct (load _) as [included|]; [|discriminate].
    injection Hres' as <-. apply wf_mergeFrom. now apply Hacc.
Qed.

Lemma wf_loadThemeFile host fuel themePath loaded :
  loadThemeFile host fuel themePath = Some loaded -> JsMap.wf (rules loaded).
Proof.
  destruct fuel as [|fuel]; [discriminate|].
  rewrite loadThemeFile_S.
  destruct (readFileSync host themePath) as [text|].
  - apply wf_mergeIncludes. intros res [= <-]. apply wf_fromRules.
  - intros [= <-]. apply wf_empty.
Qed.

(** *** The properties of the specification *)

Import Samples.

(** C5. [lookup] of the scopes ["comment.line"] in a theme whose rules are
    "comment" and "comment.line", inserted in that order, merges the two
    settings field by field: each field is the one of "comment.line" when
    that rule defines it and the one of "comment" otherwise. *)
Theorem lookup_comment_line (general specific : TextMateRuleSettings) :
  let theme := fromRules [mkRule (ScopeString "comment") general;
                          mkRule (ScopeString "comment.line") specific] in
  rules theme = [("comment", general); ("comment.line", specific)]
  /\ lookup theme ["comment.line"]
     = {| foreground :=
            match foreground specific with
            | Some colour => Some colour
            | None => foreground general
            end;
          background :=
            match background specific with
            | Some colour => Some colour
            | None => background general
            end;
          fontStyle :=
            match fontStyle specific with
            | Some style => Some style
            | None => fontStyle general
            end |}.
Proof.
  cbv zeta. split; [reflexivity|].
  destruct general as [[?|] [?|] [?|]], specific as [[?|] [?|] [?|]]; reflexivity.
Qed.

(** On a concrete theme: "comment" is green and bold, "comment.line" is on
    blue and italic; the lookup keeps the green that only "comment"
    defines, takes the blue that only "comment.line" defines, and is
    italic, not bold, where both define the font style. *)
Lemma lookup_comment_line_witness :
  lookup (fromRules [mkRule (ScopeString "comment") greenBold;
                     mkRule (ScopeString "comment.line") onBlue])
    ["comment.line"]
  = mkSettings (Some "#00ff00") (Some "#0000ff") (Some "italic").
Proof.
  exact (proj2 (lookup_comment_line greenBold onBlue)).
Defined.

(** C6. After [mergeFrom] of a theme B into a theme A, a key of B that A
    did not have holds the settings of B, and a key of both holds, for
    each of the three fields, the field of B where B defines it and the
    field of A otherwise. *)
Theorem mergeFrom_overrides (A B : ColorTheme) key (inB : TextMateRuleSettings) :
  JsMap.wf (rules B) ->
  stored B key = Some inB ->
  (stored A key = None -> stored (mergeFrom A B) key = Some inB)
  /\ (forall inA, stored A key = Some inA ->
        exists merged,
          stored (mergeFrom A B) key = Some merged
          /\ foreground merged
             = match foreground inB with Some c => Some c | None => foreground inA end
          /\ background merged
             = match background inB with Some c => Some c | None => background inA end
          /\ fontStyle merged
             = match fontStyle inB with Some f => Some f | None => fontStyle inA end).
Proof.
  intros Hwf HB.
  pose proof (stored_merge_present (rules B) A key inB Hwf HB) as Hm.
  rewrite <- mergeFrom_fold in Hm. split.
  - intros HA. rewrite Hm, HA. now rewrite mergeRuleSettings_undefined.
  - intros inA HA. rewrite Hm, HA. eexists. split; [reflexivity|].
    repeat split.
Qed.

Lemma mergeFrom_overrides_witness :
  JsMap.wf (rules themeB)
  /\ stored themeB "string" = Some onBlue
  /\ stored themeA "string" = None
  /\ stored (mergeFrom themeA themeB) "string" = Some onBlue
  /\ stored themeB "comment" = Some onBlue
  /\ stored themeA "comment" = Some red
  /\ exists merged,
       stored (mergeFrom themeA themeB) "comment" = Some merged
       /\ foreground merged = Some "#ff0000"
       /\ background merged = Some "#0000ff"
       /\ fontStyle merged = Some "italic".
Proof.
  assert (Hwf : JsMap.wf (rules themeB)).
  { unfold JsMap.wf. vm_compute. repeat constructor; simpl; intuition discriminate. }
  split; [exact Hwf|]. split; [reflexivity|]. split; [reflexivity|].
  split.
  { exact (proj1 (mergeFrom_overrides themeA themeB "string" onBlue Hwf eq_refl)
             eq_refl). }
  split; [reflexivity|]. split; [reflexivity|].
  exact (proj2 (mergeFrom_overrides themeA themeB "comment" onBlue Hwf eq_refl)
           red eq_refl).
Defined.

(** C7. Loading a theme file of which every include is a path that cannot
    be read raises nothing and gives the theme of the rules of the file's
    own [tokenColors]. *)
Theorem loadThemeFile_unreadable_includes (host : Host) (fuel : nat)
    (themePath text : string) :
  readFileSync host themePath = Some text ->
  (forall include, In include (includeOf (parse host text)) ->
     readFileSync host (join host (dirname host themePath) include) = None) ->
  loadThemeFile host (S (S fuel)) themePath
  = Some (fromRules (tokenColorsOf (parse host text))).
Proof.
  intros Hread Hall. rewrite loadThemeFile_S, Hread.
  now apply mergeIncludes_unreadable.
Qed.

Lemma loadThemeFile_unreadable_includes_witness :
  readFileSync Samples.host "/themes/dark.json" = Some "dark"
  /\ includeOf (parse Samples.host "dark") = ["./base.json"]
  /\ readFileSync Samples.host "/themes/./base.json" = None
  /\ loadThemeFile Samples.host 2 "/themes/dark.json"
     = Some (fromRules [mkRule (ScopeString "comment") red]).
Proof.
  split; [reflexivity|]. split; [reflexivity|]. split; [reflexivity|].
  apply (loadThemeFile_unreadable_includes Samples.host 0 "/themes/dark.json" "dark").
  - reflexivity.
  - simpl. intros include [<-|[]]. reflexivity.
Defined.

(** C8. [fromRules] registers the settings of a rule under each scope the
    rule names: a rule with the scope list ["a"; "b"] gives both keys its
    settings; a rule without a scope changes nothing, a rule with one
    scope string sets that key and a rule with a list sets every listed
    key, the other keys keeping what the rules before gave them; and the
    keys of the theme are the scopes named by some rule. *)
Theorem fromRules_scope_expansion :
  (forall value,
     let theme := fromRules [mkRule (ScopeList ["a"; "b"]) value] in
     stored theme "a" = Some value /\ stored theme "b" = Some value
     /\ JsMap.keys (rules theme) = ["a"; "b"])
  /\ (forall rs value,
        fromRules (rs ++ [mkRule ScopeUndefined value]) = fromRules rs)
  /\ (forall rs value s key,
        stored (fromRules (rs ++ [mkRule (ScopeString s) value])) key
        = if String.eqb key s then Some value else stored (fromRules rs) key)
  /\ (forall rs value l key,
        stored (fromRules (rs ++ [mkRule (ScopeList l) value])) key
        = if existsb (String.eqb key) l then Some value
          else stored (fromRules rs) key)
  /\ (forall rs key,
        In key (JsMap.keys (rules (fromRules rs)))
        <-> exists rule, In rule rs /\ In key (scopesOf rule)).
Proof.
  repeat split.
  - intros rs value. now rewrite fromRules_snoc.
  - intros rs value s key. rewrite fromRules_snoc, stored_addRule. simpl.
    now rewrite orb_false_r.
  - intros rs value l key. now rewrite fromRules_snoc, stored_addRule.
  - unfold fromRules. rewrite keys_addRules. simpl. tauto.
  - intros H. unfold fromRules. rewrite keys_addRules. now right.
Qed.

(** C9. Within one call of [fromRules], when two rules name the same
    scope, the key holds the settings record of the later one as a whole:
    nothing of the earlier record is kept, so where the later record
    leaves a field undefined the field is undefined in the theme. *)
Theorem fromRules_later_rule_replaces (before between after : list TextMateRule)
    (earlier later : TextMateRule) key :
  In key (scopesOf earlier) ->
  In key (scopesOf later) ->
  (forall rule, In rule after -> ~ In key (scopesOf rule)) ->
  let theme := fromRules (before ++ earlier :: between ++ later :: after) in
  stored theme key = Some (settings later)
  /\ (forall field, In field [foreground; background; fontStyle] ->
      field (settings earlier) <> None ->
      field (settings later) = None ->
      stored theme key
      <> Some (mergeRuleSettings (Some (settings earlier)) (settings later))).
Proof.
  intros _ Hlater Hafter theme.
  assert (Hst : stored theme key = Some (settings later)).
  { unfold theme.
    replace (before ++ earlier :: between ++ later :: after)%list
      with ((before ++ earlier :: between) ++ later :: after)%list
      by (rewrite <- app_assoc; reflexivity).
    rewrite fromRules_app. simpl.
    rewrite stored_addRules_untouched by assumption.
    rewrite stored_addRule.
    apply targets_spec in Hlater. now rewrite Hlater. }
  split; [exact Hst|].
  intros field Hfield Hsome Hnone. rewrite Hst. intros [= Heq].
  apply (f_equal field) in Heq. rewrite Hnone in Heq.
  simpl in Hfield.
  destruct Hfield as [<-|[<-|[<-|[]]]]; simpl in Heq; rewrite Hnone in Heq;
    simpl in Heq; now apply Hsome.
Qed.

Lemma fromRules_later_rule_replaces_witness :
  let theme := fromRules [mkRule (ScopeString "comment") red;
                          mkRule (ScopeList ["string"; "comment"]) onBlue] in
  stored theme "comment" = Some onBlue
  /\ stored theme "comment" <> Some (mergeRuleSettings (Some red) onBlue).
Proof.
  destruct (fromRules_later_rule_replaces [] [] []
              (mkRule (ScopeString "comment") red)
              (mkRule (ScopeList ["string"; "comment"]) onBlue) "comment")
    as [Hstored Hlost].
  - simpl. now left.
  - simpl. right. now left.
  - intros rule [].
  - split; [exact Hstored|].
    apply (Hlost foreground); [now left | discriminate | reflexivity].
Defined.

(** C10. [mergeFrom] touches only the keys of the other theme: a key the
    other theme does not have keeps in the receiver what it had, so a key
    of neither theme is still absent afterwards. *)
Theorem mergeFrom_frame (A B : ColorTheme) key :
  stored B key = None ->
  stored (mergeFrom A B) key = stored A key
  /\ (stored A key = None -> stored (mergeFrom A B) key = None)
  /\ (In key (JsMap.keys (rules (mergeFrom A B))) <-> In key (JsMap.keys (rules A))).
Proof.
  intros HB. apply get_None in HB.
  assert (Hsame : stored (mergeFrom A B) key = stored A key).
  { rewrite mergeFrom_fold. now apply stored_merge_absent. }
  split; [exact Hsame|]. split.
  - intros HA. now rewrite Hsame.
  - rewrite mergeFrom_fold, keys_merge. tauto.
Qed.

Lemma mergeFrom_frame_witness :
  stored themeB "keyword" = None
  /\ stored (mergeFrom themeA themeB) "keyword" = Some greenBold
  /\ stored themeB "variable" = None
  /\ stored (mergeFrom themeA themeB) "variable" = None.
Proof.
  split; [reflexivity|].
  split; [exact (proj1 (mergeFrom_frame themeA themeB "keyword" eq_refl))|].
  split; [reflexivity|].
  exact (proj1 (proj2 (mergeFrom_frame themeA themeB "variable" eq_refl)) eq_refl).
Defined.

End ThemeFacts.

(** ** Facts about the retrying request sender *)
Module CtxFacts.

Import Ctx.

(** *** The arithmetic of the delays *)

Lemma strictEq_spec (a b : Js.value) : Js.strictEq a b = true <-> a = b.
Proof.
  destruct a, b; simpl; try (split; [discriminate | congruence]).
  - tauto.
  - rewrite Z.eqb_eq. split; congruence.
  - rewrite String.eqb_eq. split; congruence.
Qed.

Lemma toInt32_small (z : Z) : 0 <= z < 2 ^ 31 -> Js.toInt32 z = z.
Proof.
  intros Hz. unfold Js.toInt32. cbv zeta.
  change (2 ^ 31) with 2147483648 in *. change (2 ^ 32) with 4294967296.
  rewrite Z.mod_small by lia.
  destruct (Z.ltb_spec z 2147483648); [reflexivity | lia].
Qed.

(** Below 31 the shift of 1 is the power of two. *)
Lemma shl_one (d : Z) : 0 <= d < 31 -> Js.shl 1 d = 2 ^ d.
Proof.
  intros Hd. unfold Js.shl.
  change 31 with (Z.ones 5). rewrite Z.land_ones by lia.
  rewrite Z.mod_small by (change (2 ^ 5) with 32; lia).
  rewrite (toInt32_small 1) by (split; [lia | reflexivity]).
  rewrite Z.shiftl_1_l.
  apply toInt32_small. split; [apply Z.pow_nonneg; lia|].
  apply Z.pow_lt_mono_r; lia.
Qed.

Lemma backoff_pow (d : Z) : 0 <= d < 31 -> backoff (Some d) = 10 * 2 ^ d.
Proof. intros Hd. unfold backoff. now rewrite shl_one. Qed.

Lemma In_firstn {A : Type} (n : nat) (l : list A) (x : A) :
  In x (firstn n l) -> In x l.
Proof.
  intros Hin. rewrite <- (firstn_skipn n l). apply in_or_app. now left.
Qed.

Section Sender.

Context {Param Token R : Type}.
Variable ContentModified : Z.
Variable client : LanguageClient Param Token R.
Variable method : string.
Variable param : Param.
Variable token : option Token.

Local Abbreviation retryLoop' := (retryLoop ContentModified client method param token).
Local Abbreviation rejectedAsModified' :=
  (rejectedAsModified ContentModified client method param token).
Local Abbreviation sent := (Sent method param token).
Local Abbreviation retried := (Ctx.retried method param token).

(** The world after one more request. *)
Local Abbreviation afterRequest w := (mkWorld (S (issued w)) (log w ++ [sent])).

(** *** What a log holds *)

Lemma requestsIn_app (l1 l2 : list (Event Param Token)) :
  requestsIn (l1 ++ l2) = (requestsIn l1 + requestsIn l2)%nat.
Proof. unfold requestsIn. now rewrite filter_app, length_app. Qed.

Lemma sleepsIn_app (l1 l2 : list (Event Param Token)) :
  sleepsIn (l1 ++ l2) = (sleepsIn l1 ++ sleepsIn l2)%list.
Proof. unfold sleepsIn. apply flat_map_app. Qed.

Lemma requestsIn_retried ds : requestsIn (retried ds) = List.length ds.
Proof.
  induction ds as [|d ds IH]; [reflexivity|].
  change (retried (d :: ds)) with ([sent; Slept (backoff (Some d))] ++ retried ds)%list.
  rewrite requestsIn_app, IH. reflexivity.
Qed.

Lemma sleepsIn_retried ds :
  sleepsIn (retried ds) = map (fun d => backoff (Some d)) ds.
Proof.
  induction ds as [|d ds IH]; [reflexivity|].
  change (retried (d :: ds)) with ([sent; Slept (backoff (Some d))] ++ retried ds)%list.
  rewrite sleepsIn_app, IH. reflexivity.
Qed.

(** *** One turn of the loop *)

Lemma retryLoop_resolved delay rest w result :
  sendRequest client method param token (issued w) = Resolved result ->
  retryLoop' (delay :: rest) w = (Return result, afterRequest w).
Proof. intros H. simpl. unfold awaitSendRequest. now rewrite H. Qed.

Lemma retryLoop_last w err :
  sendRequest client method param token (issued w) = Rejected err ->
  retryLoop' [None] w = (Throw (ThrownError err), afterRequest w).
Proof. intros H. simpl. unfold awaitSendRequest. now rewrite H. Qed.

Lemma retryLoop_fatal delay rest w err :
  sendRequest client method param token (issued w) = Rejected err ->
  ~ isContentModified ContentModified err ->
  retryLoop' (delay :: rest) w = (Throw (ThrownError err), afterRequest w).
Proof.
  intros H Hkind. simpl. unfold awaitSendRequest. rewrite H.
  replace (Js.strictNe (code err) (Js.Number ContentModified)) with true.
  - now rewrite orb_true_r.
  - unfold Js.strictNe.
    destruct (Js.strictEq (code err) (Js.Number ContentModified)) eqn:E;
      [|reflexivity].
    apply strictEq_spec in E. contradiction.
Qed.

Lemma retryLoop_retry d rest w err :
  sendRequest client method param token (issued w) = Rejected err ->
  isContentModified ContentModified err ->
  retryLoop' (Some d :: rest) w
  = retryLoop' rest (sleep (backoff (Some d)) (afterRequest w)).
Proof.
  intros H Hkind. simpl. unfold awaitSendRequest. rewrite H.
  unfold isContentModified in Hkind. rewrite Hkind.
  unfold Js.strictNe. simpl. now rewrite Z.eqb_refl.
Qed.

(** *** Attempts rejected as "content modified" are all retried *)

Lemma retryLoop_all_modified (ds : list Z) rest w :
  (forall n, (n < List.length ds)%nat -> rejectedAsModified' w n) ->
  retryLoop' (map Some ds ++ rest)%list w
  = retryLoop' rest
      (mkWorld (issued w + List.length ds) (log w ++ retried ds)).
Proof.
  revert w. induction ds as [|d ds IH]; intros w Hall.
  - simpl. rewrite Nat.add_0_r, app_nil_r. now destruct w.
  - destruct (Hall 0%nat) as (err & Hrej & Hkind); [simpl; lia|].
    rewrite Nat.add_0_r in Hrej.
    cbn [map app]. rewrite (retryLoop_retry d _ w err Hrej Hkind).
    rewrite IH.
    + f_equal. unfold sleep. cbn [issued log List.length].
      f_equal; [lia|].
      unfold Ctx.retried. cbn [flat_map]. now rewrite <- !app_assoc.
    + intros n Hn. destruct (Hall (S n)) as (e & He & Hk); [simpl; lia|].
      exists e. split; [|exact Hk].
      unfold sleep. cbn [issued]. rewrite <- He. f_equal. lia.
Qed.

(** The array of the loop, cut after the first [j] delays. *)
Lemma delays_split (j : nat) :
  (j <= 5)%nat ->
  delays
  = (map Some (firstn j [2; 4; 6; 8; 10])
       ++ nth j delays None :: skipn (S j) delays)%list.
Proof.
  intros Hj. do 6 (destruct j as [|j]; [reflexivity|]). lia.
Qed.

(** The last turn of the loop has no delay, so the loop never reaches the
    statement after it. *)
Lemma retryLoop_never_falls_through (ds : list (option Z)) w s :
  fst (retryLoop' (ds ++ [None])%list w) <> Throw (ThrownString s).
Proof.
  revert w. induction ds as [|delay ds IH]; intros w; cbn [app retryLoop];
    unfold awaitSendRequest;
    destruct (sendRequest client method param token (issued w)) as [result|err];
    try discriminate.
  - destruct (isNull delay || Js.strictNe (code err) (Js.Number ContentModified));
      [discriminate | apply IH].
Qed.

(** *** The properties of the specification *)

Local Abbreviation sendRequestWithRetry' :=
  (sendRequestWithRetry ContentModified client method param token).

(** C1. When every attempt is rejected as "content modified", the sender
    issues exactly 6 requests and sleeps between them 10 * 2^d
    milliseconds for d = 2, 4, 6, 8, 10 in this order, then fails. *)
Theorem six_attempts_when_always_modified (w : World Param Token) :
  (forall n, (n < 6)%nat -> rejectedAsModified' w n) ->
  exists failure w',
    sendRequestWithRetry' w = (Throw failure, w')
    /\ issued w' = (issued w + 6)%nat
    /\ requestsIn (log w') = (requestsIn (log w) + 6)%nat
    /\ sleepsIn (log w')
       = (sleepsIn (log w) ++ map (fun d => 10 * 2 ^ d) [2; 4; 6; 8; 10])%list
    /\ log w'
       = (log w ++ [sent; Slept 40; sent; Slept 160; sent; Slept 640;
                    sent; Slept 2560; sent; Slept 10240; sent])%list.
Proof.
  intros Hall.
  destruct (Hall 5%nat) as (err & Hrej & _); [lia|].
  exists (ThrownError err). eexists.
  unfold sendRequestWithRetry.
  change delays with (map Some [2; 4; 6; 8; 10] ++ [None])%list.
  rewrite retryLoop_all_modified by (intros n Hn; apply Hall; simpl in Hn; lia).
  rewrite (retryLoop_last _ err) by exact Hrej.
  split; [reflexivity|]. cbn [issued log].
  split; [simpl; lia|].
  rewrite <- app_assoc.
  split; [rewrite requestsIn_app; reflexivity|].
  split; [rewrite sleepsIn_app; reflexivity | reflexivity].
Qed.

(** C2. When the first attempt is rejected with an error that is not
    "content modified", the sender issues this one request, does not
    sleep, and throws the error it caught. *)
Theorem other_error_is_rethrown_at_once (w : World Param Token)
    (err : ResponseError) :
  sendRequest client method param token (issued w) = Rejected err ->
  ~ isContentModified ContentModified err ->
  sendRequestWithRetry' w
  = (Throw (ThrownError err), mkWorld (S (issued w)) (log w ++ [sent])).
Proof.
  intros Hrej Hkind. unfold sendRequestWithRetry, delays.
  now apply retryLoop_fatal.
Qed.

(** C3, as the code has it. When all six attempts are rejected as
    "content modified", the sender throws the error of the sixth attempt
    itself, and not the string "unreachable". *)
Theorem final_failure_is_the_last_error (w : World Param Token) :
  (forall n, (n < 6)%nat -> rejectedAsModified' w n) ->
  exists err,
    sendRequest client method param token (issued w + 5) = Rejected err
    /\ isContentModified ContentModified err
    /\ fst (sendRequestWithRetry' w) = Throw (ThrownError err)
    /\ fst (sendRequestWithRetry' w) <> Throw (ThrownString "unreachable").
Proof.
  intros Hall.
  destruct (Hall 5%nat) as (err & Hrej & Hkind); [lia|].
  exists err. split; [exact Hrej|]. split; [exact Hkind|].
  assert (Hres : fst (sendRequestWithRetry' w) = Throw (ThrownError err)).
  { unfold sendRequestWithRetry.
    change delays with (map Some [2; 4; 6; 8; 10] ++ [None])%list.
    rewrite retryLoop_all_modified by (intros n Hn; apply Hall; simpl in Hn; lia).
    now rewrite (retryLoop_last _ err) by exact Hrej. }
  split; [exact Hres|]. rewrite Hres. discriminate.
Qed.

(** C4. When the attempts before the k-th, k from 1 to 6, are rejected as
    "content modified" and the k-th one succeeds, the sender returns the
    result of the k-th attempt, having issued k requests and no more. *)
Theorem returns_first_success (w : World Param Token) (k : nat) (result : R) :
  (1 <= k <= 6)%nat ->
  (forall n, (n < k - 1)%nat -> rejectedAsModified' w n) ->
  sendRequest client method param token (issued w + (k - 1)) = Resolved result ->
  exists w',
    sendRequestWithRetry' w = (Return result, w')
    /\ issued w' = (issued w + k)%nat
    /\ requestsIn (log w') = (requestsIn (log w) + k)%nat
    /\ sleepsIn (log w')
       = (sleepsIn (log w)
            ++ map (fun d => 10 * 2 ^ d) (firstn (k - 1) [2; 4; 6; 8; 10]))%list
    /\ log w'
       = (log w ++ retried (firstn (k - 1) [2; 4; 6; 8; 10]) ++ [sent])%list.
Proof.
  intros Hk Hall Hres.
  destruct k as [|j]; [lia|].
  replace (S j - 1)%nat with j in * by lia.
  assert (Hj : (j <= 5)%nat) by lia.
  assert (Hlen : List.length (firstn j [2; 4; 6; 8; 10]) = j).
  { rewrite length_firstn. simpl. lia. }
  eexists. unfold sendRequestWithRetry.
  rewrite (delays_split j Hj).
  rewrite retryLoop_all_modified by (rewrite Hlen; exact Hall).
  rewrite (retryLoop_resolved _ _ _ result)
    by (cbn [issued]; rewrite Hlen; exact Hres).
  split; [reflexivity|]. cbn [issued log]. rewrite Hlen.
  split; [lia|].
  rewrite <- app_assoc.
  split; [|split; [|reflexivity]].
  - rewrite !requestsIn_app, requestsIn_retried, Hlen.
    change (requestsIn [sent]) with 1%nat. lia.
  - rewrite !sleepsIn_app, sleepsIn_retried. simpl. rewrite app_nil_r.
    f_equal. apply map_ext_in. intros d Hd. apply backoff_pow.
    apply In_firstn in Hd. simpl in Hd. lia.
Qed.

End Sender.

(** *** The properties on the sample clients *)

Import Samples.

Lemma alwaysModified_rejects (w : World unit unit) (n : nat) :
  rejectedAsModified contentModified alwaysModified "textDocument/hover" tt None w n.
Proof. exists modifiedError. split; reflexivity. Defined.

Lemma six_attempts_when_always_modified_witness :
  exists failure w',
    sendRequestWithRetry contentModified alwaysModified "textDocument/hover" tt None
      freshWorld = (Throw failure, w')
    /\ issued w' = 6%nat
    /\ requestsIn (log w') = 6%nat
    /\ sleepsIn (log w') = [40; 160; 640; 2560; 10240].
Proof.
  destruct (six_attempts_when_always_modified contentModified alwaysModified
              "textDocument/hover" tt None freshWorld
              (fun n _ => alwaysModified_rejects freshWorld n))
    as (failure & w' & Hrun & Hissued & Hrequests & Hsleeps & _).
  exists failure, w'. repeat split; assumption.
Defined.

Lemma other_error_is_rethrown_at_once_witness :
  sendRequest alwaysCancelled "textDocument/hover" tt None 0 = Rejected cancelledError
  /\ ~ isContentModified contentModified cancelledError
  /\ sendRequestWithRetry contentModified alwaysCancelled "textDocument/hover" tt None
       freshWorld
     = (Throw (ThrownError cancelledError),
        mkWorld 1 [Sent "textDocument/hover" tt None]).
Proof.
  assert (Hkind : ~ isContentModified contentModified cancelledError)
    by (unfold isContentModified; simpl; discriminate).
  split; [reflexivity|]. split; [exact Hkind|].
  exact (other_error_is_rethrown_at_once contentModified alwaysCancelled
           "textDocument/hover" tt None freshWorld cancelledError eq_refl Hkind).
Defined.

(** C3, as the specification states it, fails on the client that always
    answers "content modified": what is thrown after the sixth attempt is
    the error of the client. *)
Lemma final_failure_is_not_unreachable :
  (forall n, rejectedAsModified contentModified alwaysModified
               "textDocument/hover" tt None freshWorld n)
  /\ fst (sendRequestWithRetry contentModified alwaysModified "textDocument/hover"
            tt None freshWorld)
     = Throw (ThrownError modifiedError)
  /\ fst (sendRequestWithRetry contentModified alwaysModified "textDocument/hover"
            tt None freshWorld)
     <> Throw (ThrownString "unreachable").
Proof.
  split; [intros n; apply alwaysModified_rejects|].
  split; [reflexivity | discriminate].
Qed.

Lemma final_failure_is_the_last_error_witness :
  exists err,
    sendRequest alwaysModified "textDocument/hover" tt None 5 = Rejected err
    /\ isContentModified contentModified err
    /\ fst (sendRequestWithRetry contentModified alwaysModified "textDocument/hover"
              tt None freshWorld)
       = Throw (ThrownError err)
    /\ fst (sendRequestWithRetry contentModified alwaysModified "textDocument/hover"
              tt None freshWorld)
       <> Throw (ThrownString "unreachable").
Proof.
  exact (final_failure_is_the_last_error contentModified alwaysModified
           "textDocument/hover" tt None freshWorld
           (fun n _ => alwaysModified_rejects freshWorld n)).
Defined.

Lemma returns_first_success_witness :
  (1 <= 3 <= 6)%nat
  /\ sendRequest modifiedTwice "textDocument/hover" tt None 2 = Resolved "hover text"
  /\ exists w',
       sendRequestWithRetry contentModified modifiedTwice "textDocument/hover" tt None
         freshWorld = (Return "hover text", w')
       /\ issued w' = 3%nat
       /\ requestsIn (log w') = 3%nat
       /\ sleepsIn (log w') = [40; 160].
Proof.
  split; [lia|]. split; [reflexivity|].
  destruct (returns_first_success contentModified modifiedTwice
              "textDocument/hover" tt None freshWorld 3 "hover text")
    as (w' & Hrun & Hissued & Hrequests & Hsleeps & _).
  - lia.
  - intros n Hn. exists modifiedError. split; [|reflexivity].
    simpl in Hn. simpl.
    destruct (Nat.ltb_spec n 2); [reflexivity | lia].
  - reflexivity.
  - exists w'. repeat split; assumption.
Defined.

End CtxFacts.

(** ** Further facts about [lookup] *)
Module LookupLaws.

Import Theme.
Import JsMapFacts ThemeFacts.

Implicit Types (this : ColorTheme) (key scope : string)
  (value res : TextMateRuleSettings) (scopes : list string).

(** The pass of [lookup] over the entries of the theme for one scope, and
    the passes for a list of scopes, from a given accumulator. *)
Local Abbreviation visit sc entries start :=
  (JsMap.forEach entries
     (fun acc v k =>
        if Js.startsWith sc k then mergeRuleSettings (Some acc) v else acc)
     start).

Local Abbreviation visitAll theme scs start :=
  (fold_left (fun acc sc => visit sc (rules theme) acc) scs start).

Lemma lookup_visitAll this scopes : lookup this scopes = visitAll this scopes noSettings.
Proof. reflexivity. Qed.

(** *** Merging is associative, with [{}] as its unit *)

Lemma mergeRuleSettings_assoc (a : option TextMateRuleSettings) b c :
  mergeRuleSettings a (mergeRuleSettings (Some b) c)
  = mergeRuleSettings (Some (mergeRuleSettings a b)) c.
Proof.
  destruct a as [[[?|] [?|] [?|]]|], b as [[?|] [?|] [?|]], c as [[?|] [?|] [?|]];
    reflexivity.
Qed.

Lemma mergeRuleSettings_noSettings res : mergeRuleSettings (Some res) noSettings = res.
Proof. now destruct res as [[?|] [?|] [?|]]. Qed.

Lemma visit_from (entries : JsMap.t TextMateRuleSettings) scope res :
  visit scope entries res
  = mergeRuleSettings (Some res) (visit scope entries noSettings).
Proof.
  unfold JsMap.forEach. revert res.
  induction entries as [|[key value] entries IH]; intros res; cbn [fold_left fst snd].
  - now rewrite mergeRuleSettings_noSettings.
  - destruct (Js.startsWith scope key); [|apply IH].
    rewrite IH. rewrite (IH (mergeRuleSettings (Some noSettings) value)).
    rewrite mergeRuleSettings_empty. symmetry. apply mergeRuleSettings_assoc.
Qed.

Lemma visitAll_from this scopes res :
  visitAll this scopes res
  = mergeRuleSettings (Some res) (visitAll this scopes noSettings).
Proof.
  revert res. induction scopes as [|scope scopes IH]; intros res; cbn [fold_left].
  - now rewrite mergeRuleSettings_noSettings.
  - rewrite IH. rewrite (IH (visit scope (rules this) noSettings)).
    rewrite (visit_from (rules this) scope res).
    symmetry. apply mergeRuleSettings_assoc.
Qed.

(** X8. The scopes are looked up one after the other: the result for a list of
    scopes followed by another is the result for the second merged over
    the result for the first. *)
Theorem lookup_app this scopes1 scopes2 :
  lookup this (scopes1 ++ scopes2)
  = mergeRuleSettings (Some (lookup this scopes1)) (lookup this scopes2).
Proof.
  rewrite !lookup_visitAll, fold_left_app. apply visitAll_from.
Qed.

(** *** Scopes without a matching rule *)

Lemma visit_no_match (entries : JsMap.t TextMateRuleSettings) scope res :
  (forall key, In key (JsMap.keys entries) -> Js.startsWith scope key = false) ->
  visit scope entries res = res.
Proof.
  unfold JsMap.forEach. revert res.
  induction entries as [|[key value] entries IH]; intros res Hno;
    cbn [fold_left fst snd]; [reflexivity|].
  rewrite (Hno key) by now left.
  apply IH. intros k Hk. apply Hno. now right.
Qed.

(** X9. When no key of the theme is a prefix of one of the scopes, [lookup]
    gives the empty settings; so it does on a theme without rules and on
    an empty list of scopes. *)
Theorem lookup_no_match this scopes :
  (forall scope key, In scope scopes -> In key (JsMap.keys (rules this)) ->
     Js.startsWith scope key = false) ->
  lookup this scopes = noSettings.
Proof.
  rewrite lookup_visitAll. generalize noSettings as res.
  induction scopes as [|scope scopes IH]; intros res Hno; cbn [fold_left];
    [reflexivity|].
  rewrite visit_no_match by (intros key Hkey; apply Hno; [now left | exact Hkey]).
  apply IH. intros s k Hs Hk. apply Hno; [now right | exact Hk].
Qed.

Lemma lookup_no_match_witness :
  lookup Samples.themeA ["string.quoted"; "variable"] = noSettings
  /\ lookup newColorTheme ["comment"] = noSettings
  /\ lookup Samples.themeA [] = noSettings.
Proof.
  split; [|split].
  - apply lookup_no_match. simpl.
    intros scope key [<-|[<-|[]]] [<-|[<-|[]]]; reflexivity.
  - apply lookup_no_match. simpl. intros scope key _ [].
  - apply lookup_no_match. simpl. intros scope key [].
Defined.

(** *** Which fields a lookup defines *)

Section Field.

(** One of the three fields of the settings. *)
Variable field : TextMateRuleSettings -> option string.
Hypothesis field_known : In field [foreground; background; fontStyle].

Lemma field_merge res value :
  field (mergeRuleSettings (Some res) value) = Js.nullish (field value) (field res).
Proof.
  simpl in field_known.
  destruct field_known as [<-|[<-|[<-|[]]]]; reflexivity.
Qed.

Lemma nullish_defined (a b : option string) :
  Js.nullish a b <> None <-> a <> None \/ b <> None.
Proof.
  destruct a as [x|]; simpl.
  - split; [intros _; left; discriminate | intros _; discriminate].
  - tauto.
Qed.

Lemma visit_field_defined (entries : JsMap.t TextMateRuleSettings) scope res :
  field (visit scope entries res) <> None
  <-> field res <> None
      \/ exists key value,
           In (key, value) entries /\ Js.startsWith scope key = true
           /\ field value <> None.
Proof.
  unfold JsMap.forEach. revert res.
  induction entries as [|[key value] entries IH]; intros res; cbn [fold_left fst snd].
  - split; [now left | intros [H|(k & v & [] & _)]; exact H].
  - rewrite IH. destruct (Js.startsWith scope key) eqn:E.
    + rewrite field_merge, nullish_defined. split.
      * intros [[Hv|Hr]|(k & v & Hin & Hm & Hd)].
        -- right. exists key, value. split; [now left | now split].
        -- now left.
        -- right. exists k, v. split; [now right | now split].
      * intros [Hr|(k & v & [[= <- <-]|Hin] & Hm & Hd)].
        -- left. now right.
        -- left. now left.
        -- right. exists k, v. now repeat split.
    + split.
      * intros [Hr|(k & v & Hin & Hm & Hd)]; [now left|].
        right. exists k, v. split; [now right | now split].
      * intros [Hr|(k & v & [[= <- <-]|Hin] & Hm & Hd)]; [now left | congruence |].
        right. exists k, v. now repeat split.
Qed.

(** X10. A field of the result of [lookup] is defined exactly when some rule
    of the theme whose key is a prefix of one of the scopes defines it. *)
Theorem lookup_field_defined this scopes :
  field (lookup this scopes) <> None
  <-> exists scope key value,
        In scope scopes /\ In (key, value) (rules this)
        /\ Js.startsWith scope key = true /\ field value <> None.
Proof.
  rewrite lookup_visitAll.
  assert (Hgen : forall res,
             field (visitAll this scopes res) <> None
             <-> field res <> None
                 \/ exists scope key value,
                      In scope scopes /\ In (key, value) (rules this)
                      /\ Js.startsWith scope key = true /\ field value <> None).
  { induction scopes as [|scope scopes IH]; intros res; cbn [fold_left].
    - split; [now left | intros [H|(sc & k & v & [] & _)]; exact H].
    - rewrite IH, visit_field_defined. split.
      + intros [[Hr|(k & v & Hin & Hm & Hd)]|(sc & k & v & Hs & Hrest)].
        * now left.
        * right. exists scope, k, v. split; [now left | now repeat split].
        * right. exists sc, k, v. split; [now right | exact Hrest].
      + intros [Hr|(sc & k & v & [<-|Hs] & Hin & Hm & Hd)].
        * left. now left.
        * left. right. exists k, v. now repeat split.
        * right. exists sc, k, v. now repeat split. }
  rewrite Hgen. split; [|now right].
  intros [Hr|H]; [|exact H].
  exfalso. apply Hr. simpl in field_known.
  destruct field_known as [<-|[<-|[<-|[]]]]; reflexivity.
Qed.

End Field.

Lemma lookup_field_defined_witness :
  In foreground [foreground; background; fontStyle]
  /\ foreground (lookup Samples.themeA ["comment.block"]) <> None.
Proof.
  split; [now left|].
  apply (lookup_field_defined foreground (or_introl eq_refl) Samples.themeA
           ["comment.block"]).
  exists "comment.block", "comment", Samples.red.
  split; [now left|]. split; [now left|]. split; [reflexivity | discriminate].
Defined.

(** *** Matching is by prefix of characters, in insertion order *)

Lemma startsWith_app key suffix : Js.startsWith (key ++ suffix) key = true.
Proof.
  unfold Js.startsWith. induction key as [|c key IH]; simpl;
    [now destruct suffix|].
  destruct (Ascii.ascii_dec c c); [exact IH | contradiction].
Qed.

(** X11. A theme with one rule answers the lookup of every scope that starts
    with the key of the rule, whatever follows the key, with the settings
    of the rule; a rule with the empty scope answers every lookup. *)
Theorem lookup_single_rule key value :
  (forall suffix,
     lookup (fromRules [mkRule (ScopeString key) value]) [key ++ suffix] = value)
  /\ (forall scope, lookup (fromRules [mkRule (ScopeString "") value]) [scope] = value).
Proof.
  split.
  - intros suffix. unfold lookup, fromRules, JsMap.forEach. simpl.
    rewrite startsWith_app. apply mergeRuleSettings_empty.
  - intros scope. unfold lookup, fromRules, JsMap.forEach. simpl.
    replace (Js.startsWith scope "") with true by now destruct scope.
    apply mergeRuleSettings_empty.
Qed.

(** X12. Of two rules with different keys that both match a scope, the one
    inserted later wins on the fields it defines, whichever key is the
    longer. *)
Theorem lookup_later_key_wins key1 key2 scope value1 value2 :
  key1 <> key2 ->
  Js.startsWith scope key1 = true ->
  Js.startsWith scope key2 = true ->
  lookup (fromRules [mkRule (ScopeString key1) value1;
                     mkRule (ScopeString key2) value2]) [scope]
  = mergeRuleSettings (Some value1) value2.
Proof.
  intros Hne H1 H2. apply String.eqb_neq in Hne.
  unfold lookup, fromRules, JsMap.forEach. simpl. rewrite Hne. simpl.
  now rewrite H1, H2, mergeRuleSettings_empty.
Qed.

Lemma lookup_later_key_wins_witness :
  "comment.line" <> "comment"
  /\ lookup (fromRules [mkRule (ScopeString "comment.line") Samples.greenBold;
                        mkRule (ScopeString "comment") Samples.red])
       ["comment.line.double-slash"]
     = mkSettings (Some "#ff0000") None (Some "bold").
Proof.
  split; [discriminate|].
  exact (lookup_later_key_wins "comment.line" "comment" "comment.line.double-slash"
           Samples.greenBold Samples.red
           ltac:(discriminate) eq_refl eq_refl).
Defined.

End LookupLaws.

(** ** Further facts about [mergeFrom] *)
Module MergeLaws.

Import Theme.
Import JsMapFacts ThemeFacts.
Import LookupLaws.

Implicit Types (A B C this other : ColorTheme) (key : string)
  (value : TextMateRuleSettings) (m : JsMap.t TextMateRuleSettings).

(** *** Maps with the same keys in the same order and the same values *)

Lemma map_ext m1 m2 :
  JsMap.wf m1 ->
  JsMap.keys m1 = JsMap.keys m2 ->
  (forall key, JsMap.get key m1 = JsMap.get key m2) ->
  m1 = m2.
Proof.
  unfold JsMap.wf. revert m2.
  induction m1 as [|[k1 v1] m1 IH]; intros [|[k2 v2] m2] Hnd Hkeys Hget;
    try discriminate; [reflexivity|].
  simpl in Hkeys. injection Hkeys as <- Hkeys.
  inversion Hnd as [|? ? Hnotin Hrest]; subst.
  pose proof (Hget k1) as Hk. simpl in Hk. rewrite String.eqb_refl in Hk.
  injection Hk as <-. f_equal.
  apply IH; [assumption | assumption |].
  intros key. specialize (Hget key). simpl in Hget.
  destruct (String.eqb_spec k1 key) as [Heq|Hne]; [subst key | exact Hget].
  assert (H1 : JsMap.get k1 m1 = None) by now apply get_None.
  assert (H2 : JsMap.get k1 m2 = None) by (apply get_None; now rewrite <- Hkeys).
  now rewrite H1, H2.
Qed.

Lemma theme_ext A B :
  JsMap.wf (rules A) ->
  JsMap.keys (rules A) = JsMap.keys (rules B) ->
  (forall key, stored A key = stored B key) ->
  A = B.
Proof.
  destruct A as [a], B as [b]. simpl. intros Hwf Hkeys Hget.
  f_equal. now apply map_ext.
Qed.

(** A key is among the keys of a map. *)
Local Abbreviation hasKey keys key := (existsb (String.eqb key) keys).

Lemma hasKey_spec keys key : hasKey keys key = true <-> In key keys.
Proof. apply targets_spec. Qed.

Lemma keys_set m key value :
  JsMap.keys (JsMap.set key value m)
  = if hasKey (JsMap.keys m) key then JsMap.keys m
    else (JsMap.keys m ++ [key])%list.
Proof.
  induction m as [|[k0 v0] m IH]; simpl; [reflexivity|].
  rewrite (String.eqb_sym key k0).
  destruct (String.eqb k0 key); simpl; [reflexivity|].
  rewrite IH. now destruct (existsb (String.eqb key) (JsMap.keys m)).
Qed.

(** *** What [mergeFrom] stores, and in which order *)

Lemma stored_mergeFrom A B key :
  JsMap.wf (rules B) ->
  stored (mergeFrom A B) key
  = match stored B key with
    | Some inB => Some (mergeRuleSettings (stored A key) inB)
    | None => stored A key
    end.
Proof.
  intros Hwf. rewrite mergeFrom_fold.
  destruct (stored B key) as [inB|] eqn:E.
  - now apply stored_merge_present.
  - apply stored_merge_absent. now apply get_None.
Qed.

Lemma hasKey_app (keys1 keys2 : list string) key :
  hasKey (keys1 ++ keys2) key = hasKey keys1 key || hasKey keys2 key.
Proof. apply existsb_app. Qed.

Lemma hasKey_false (keys : list string) key :
  hasKey keys key = false <-> ~ In key keys.
Proof.
  rewrite <- hasKey_spec. destruct (hasKey keys key); split; congruence.
Qed.

Lemma keys_merged A B :
  JsMap.wf (rules B) ->
  JsMap.keys (rules (mergeFrom A B))
  = (JsMap.keys (rules A)
       ++ filter (fun key => negb (hasKey (JsMap.keys (rules A)) key))
            (JsMap.keys (rules B)))%list.
Proof.
  rewrite mergeFrom_fold. unfold JsMap.wf.
  generalize (rules B) as l. intros l. revert A.
  induction l as [|[k0 v0] l IH]; intros A Hnd; cbn [fold_left fst snd].
  - simpl. now rewrite app_nil_r.
  - simpl in Hnd. inversion Hnd as [|? ? Hnotin Hrest]; subst.
    rewrite IH by assumption. unfold mergeEntry. cbn [rules].
    rewrite keys_set. cbn [JsMap.keys map fst filter].
    fold (JsMap.keys l).
    destruct (hasKey (JsMap.keys (rules A)) k0) eqn:E; cbn [negb].
    + reflexivity.
    + rewrite <- app_assoc. cbn [app]. do 2 f_equal.
      apply filter_ext_in. intros key Hkey.
      rewrite hasKey_app. simpl.
      destruct (String.eqb_spec key k0) as [->|Hne]; [contradiction|].
      now rewrite !orb_false_r.
Qed.

(** X13. The receiver keeps its keys in their order, and the keys it did not
    have follow in the order of the other theme. *)
Theorem keys_mergeFrom A B :
  JsMap.wf (rules B) ->
  JsMap.keys (rules (mergeFrom A B))
  = (JsMap.keys (rules A)
       ++ filter (fun key => negb (hasKey (JsMap.keys (rules A)) key))
            (JsMap.keys (rules B)))%list.
Proof. apply keys_merged. Qed.

Lemma keys_mergeFrom_witness :
  JsMap.wf (rules Samples.themeB)
  /\ JsMap.keys (rules (mergeFrom Samples.themeA Samples.themeB))
     = ["comment"; "keyword"; "string"].
Proof.
  assert (Hwf : JsMap.wf (rules Samples.themeB)) by apply wf_fromRules.
  split; [exact Hwf|].
  exact (keys_mergeFrom Samples.themeA Samples.themeB Hwf).
Defined.

(** *** [mergeFrom] as an operation on themes *)

Lemma mergeRuleSettings_twice (a : option TextMateRuleSettings) b :
  mergeRuleSettings (Some (mergeRuleSettings a b)) b = mergeRuleSettings a b.
Proof.
  destruct a as [[[?|] [?|] [?|]]|], b as [[?|] [?|] [?|]]; reflexivity.
Qed.

Lemma mergeFrom_empty_l B :
  JsMap.wf (rules B) -> mergeFrom newColorTheme B = B.
Proof.
  intros Hwf. apply theme_ext.
  - apply wf_mergeFrom, wf_empty.
  - rewrite keys_merged by assumption. simpl. apply filter_true.
  - intros key. rewrite stored_mergeFrom by assumption.
    destruct (stored B key) as [inB|]; [|reflexivity].
    change (stored newColorTheme key) with (@None TextMateRuleSettings).
    now rewrite mergeRuleSettings_undefined.
Qed.

(** X14. Merging a theme into a new, empty theme gives that theme. *)
Theorem mergeFrom_into_empty B :
  JsMap.wf (rules B) -> mergeFrom newColorTheme B = B.
Proof. apply mergeFrom_empty_l. Qed.

Lemma mergeFrom_into_empty_witness :
  JsMap.wf (rules Samples.themeB)
  /\ mergeFrom newColorTheme Samples.themeB = Samples.themeB.
Proof.
  assert (Hwf : JsMap.wf (rules Samples.themeB)) by apply wf_fromRules.
  split; [exact Hwf | exact (mergeFrom_into_empty Samples.themeB Hwf)].
Defined.

(** X15. Merging the same theme a second time changes nothing. *)
Theorem mergeFrom_twice A B :
  JsMap.wf (rules A) -> JsMap.wf (rules B) ->
  mergeFrom (mergeFrom A B) B = mergeFrom A B.
Proof.
  intros HA HB. apply theme_ext.
  - now do 2 apply wf_mergeFrom.
  - rewrite (keys_merged (mergeFrom A B) B) by assumption.
    rewrite <- app_nil_r. f_equal.
    rewrite <- (filter_false (JsMap.keys (rules B))).
    apply filter_ext_in. intros key Hkey.
    apply negb_false_iff, hasKey_spec.
    rewrite mergeFrom_fold. apply keys_merge. now right.
  - intros key. rewrite (stored_mergeFrom (mergeFrom A B) B) by assumption.
    rewrite stored_mergeFrom by assumption.
    destruct (stored B key) as [inB|]; [|reflexivity].
    now rewrite mergeRuleSettings_twice.
Qed.

Lemma mergeFrom_twice_witness :
  JsMap.wf (rules Samples.themeA) /\ JsMap.wf (rules Samples.themeB)
  /\ mergeFrom (mergeFrom Samples.themeA Samples.themeB) Samples.themeB
     = mergeFrom Samples.themeA Samples.themeB.
Proof.
  assert (HA : JsMap.wf (rules Samples.themeA)) by apply wf_fromRules.
  assert (HB : JsMap.wf (rules Samples.themeB)) by apply wf_fromRules.
  split; [exact HA|]. split; [exact HB|].
  exact (mergeFrom_twice Samples.themeA Samples.themeB HA HB).
Defined.

Lemma hasKey_filter (keysA keysB : list string) key :
  hasKey keysA key = false ->
  hasKey (filter (fun k => negb (hasKey keysA k)) keysB) key = hasKey keysB key.
Proof.
  intros HA. apply eq_true_iff_eq. rewrite !hasKey_spec, filter_In.
  rewrite HA. simpl. tauto.
Qed.

Lemma filter_filter {X : Type} (f g : X -> bool) (l : list X) :
  filter f (filter g l) = filter (fun x => g x && f x) l.
Proof.
  induction l as [|x l IH]; simpl; [reflexivity|].
  destruct (g x); simpl; [destruct (f x)|]; now rewrite IH.
Qed.

(** X16. Merging B and then C into a theme is merging into it the theme that
    B becomes when C is merged into B: the same keys in the same order
    with the same settings. *)
Theorem mergeFrom_assoc A B C :
  JsMap.wf (rules A) -> JsMap.wf (rules B) -> JsMap.wf (rules C) ->
  mergeFrom (mergeFrom A B) C = mergeFrom A (mergeFrom B C).
Proof.
  intros HA HB HC.
  assert (HBC : JsMap.wf (rules (mergeFrom B C))) by now apply wf_mergeFrom.
  apply theme_ext.
  - now do 2 apply wf_mergeFrom.
  - rewrite (keys_merged (mergeFrom A B) C), (keys_merged A (mergeFrom B C))
      by assumption.
    rewrite (keys_merged A B), (keys_merged B C) by assumption.
    rewrite filter_app, <- app_assoc. do 2 f_equal.
    rewrite filter_filter. apply filter_ext. intros key.
    rewrite hasKey_app.
    destruct (hasKey (JsMap.keys (rules A)) key) eqn:E; simpl.
    + now rewrite andb_false_r.
    + rewrite hasKey_filter by exact E. now rewrite andb_true_r.
  - intros key.
    rewrite (stored_mergeFrom (mergeFrom A B) C), (stored_mergeFrom A (mergeFrom B C))
      by assumption.
    rewrite (stored_mergeFrom A B), (stored_mergeFrom B C) by assumption.
    destruct (stored C key) as [inC|], (stored B key) as [inB|]; try reflexivity.
    + now rewrite mergeRuleSettings_assoc.
    + now rewrite mergeRuleSettings_undefined.
Qed.

Lemma mergeFrom_assoc_witness :
  JsMap.wf (rules Samples.themeA) /\ JsMap.wf (rules Samples.themeB)
  /\ mergeFrom (mergeFrom Samples.themeB Samples.themeA) Samples.themeB
     = mergeFrom Samples.themeB (mergeFrom Samples.themeA Samples.themeB).
Proof.
  assert (HA : JsMap.wf (rules Samples.themeA)) by apply wf_fromRules.
  assert (HB : JsMap.wf (rules Samples.themeB)) by apply wf_fromRules.
  split; [exact HA|]. split; [exact HB|].
  exact (mergeFrom_assoc Samples.themeB Samples.themeA Samples.themeB HB HA HB).
Defined.

End MergeLaws.

(** ** Further facts about loading theme files *)
Module LoaderLaws.

Import Theme.
Import JsMapFacts ThemeFacts.

Implicit Types (host : Host) (fuel : nat) (themePath : string)
  (loaded : ColorTheme) (load : string -> option ColorTheme).

(** *** The loop over the includes *)

Lemma mergeIncludes_None host load themePath includes :
  mergeIncludes host load themePath includes None = None.
Proof.
  unfold mergeIncludes. induction includes as [|include includes IH];
    [reflexivity | exact IH].
Qed.

Lemma mergeIncludes_cons host load themePath include includes res :
  mergeIncludes host load themePath (include :: includes) (Some res)
  = mergeIncludes host load themePath includes
      (match load (join host (dirname host themePath) include) with
       | None => None
       | Some included => Some (mergeFrom res included)
       end).
Proof. reflexivity. Qed.

Lemma mergeIncludes_stuck host load themePath includes include acc :
  In include includes ->
  load (join host (dirname host themePath) include) = None ->
  mergeIncludes host load themePath includes acc = None.
Proof.
  intros Hin Hload. revert acc.
  induction includes as [|first includes IH]; intros acc; [contradiction|].
  destruct acc as [res|]; [|apply mergeIncludes_None].
  rewrite mergeIncludes_cons.
  destruct Hin as [->|Hin]; [|now apply IH].
  rewrite Hload. apply mergeIncludes_None.
Qed.

(** *** The bound of the recursion *)

(** X18. A theme file that names itself among its includes is never loaded:
    the recursion goes on whatever the bound, as the function has no
    guard against cycles. *)
Theorem loadThemeFile_self_include host themePath text include :
  readFileSync host themePath = Some text ->
  In include (includeOf (parse host text)) ->
  join host (dirname host themePath) include = themePath ->
  forall fuel, loadThemeFile host fuel themePath = None.
Proof.
  intros Hread Hin Hself fuel.
  induction fuel as [|fuel IH]; [reflexivity|].
  rewrite loadThemeFile_S, Hread.
  apply (mergeIncludes_stuck _ _ _ _ include); [exact Hin|].
  now rewrite Hself.
Qed.

Lemma loadThemeFile_self_include_witness :
  readFileSync MoreSamples.files "/ext/loop.json" = Some "loop"
  /\ In "loop.json" (includeOf (parse MoreSamples.files "loop"))
  /\ loadThemeFile MoreSamples.files 1000 "/ext/loop.json" = None.
Proof.
  split; [reflexivity|]. split; [now left|].
  exact (loadThemeFile_self_include MoreSamples.files "/ext/loop.json" "loop"
           "loop.json" eq_refl (or_introl eq_refl) eq_refl 1000%nat).
Defined.

(** *** What an include contributes *)

(** A field that the override defines is the field of the merge. *)
Lemma field_of_override (field : TextMateRuleSettings -> option string)
    (dflt : option TextMateRuleSettings) (override : TextMateRuleSettings)
    (c : string) :
  In field [foreground; background; fontStyle] ->
  field override = Some c ->
  field (mergeRuleSettings dflt override) = Some c.
Proof.
  simpl. intros [<-|[<-|[<-|[]]]] H; simpl; now rewrite H.
Qed.

(** A field that the override leaves undefined is the field of the
    default. *)
Lemma field_of_default (field : TextMateRuleSettings -> option string)
    (dflt override : TextMateRuleSettings) :
  In field [foreground; background; fontStyle] ->
  field override = None ->
  field (mergeRuleSettings (Some dflt) override) = field dflt.
Proof.
  simpl. intros [<-|[<-|[<-|[]]]] H; simpl; now rewrite H.
Qed.

(** X19. When a theme file has one include, a readable file without includes
    of its own, the theme is the rules of the file with the rules of the
    included file merged over them: on a scope that both give settings
    for, a field that the included file defines is the one of the
    included file, not the one of the including file. *)
Theorem loadThemeFile_include_overrides host fuel themePath text include
    includedText :
  readFileSync host themePath = Some text ->
  includeOf (parse host text) = [include] ->
  readFileSync host (join host (dirname host themePath) include) = Some includedText ->
  includeOf (parse host includedText) = [] ->
  let own := fromRules (tokenColorsOf (parse host text)) in
  let included := fromRules (tokenColorsOf (parse host includedText)) in
  loadThemeFile host (S (S fuel)) themePath = Some (mergeFrom own included)
  /\ (forall key inIncluded field c,
        stored included key = Some inIncluded ->
        In field [foreground; background; fontStyle] ->
        field inIncluded = Some c ->
        exists merged,
          stored (mergeFrom own included) key = Some merged
          /\ field merged = Some c).
Proof.
  intros Hread Hincludes HreadInc Hleaf own included. split.
  - rewrite loadThemeFile_S, Hread, Hincludes, mergeIncludes_cons.
    rewrite loadThemeFile_S, HreadInc, Hleaf. reflexivity.
  - intros key inIncluded field c Hstored Hfield Hc.
    exists (mergeRuleSettings (stored own key) inIncluded). split.
    + rewrite mergeFrom_fold.
      apply stored_merge_present; [apply wf_fromRules | exact Hstored].
    + now apply field_of_override.
Qed.

Lemma loadThemeFile_include_overrides_witness :
  loadThemeFile MoreSamples.files 2 "/ext/dark.json"
  = Some (mkTheme [("comment", mkSettings (Some "#ff0000") (Some "#0000ff")
                                 (Some "italic"));
                   ("string", Samples.onBlue)])
  /\ stored (fromRules (tokenColorsOf (parse MoreSamples.files "dark"))) "comment"
     = Some Samples.red.
Proof.
  split; [|reflexivity].
  exact (proj1 (loadThemeFile_include_overrides MoreSamples.files 0
                  "/ext/dark.json" "dark" "base.json" "base"
                  eq_refl eq_refl eq_refl eq_refl)).
Defined.

End LoaderLaws.

(** ** Facts about the theme of the workbench *)
Module WorkbenchFacts.

Import Theme Workbench.
Import JsMapFacts ThemeFacts LoaderLaws.

Implicit Types (host : Host) (vscode : Vscode) (fuel : nat)
  (themeName key : string) (loaded : ColorTheme).

(** The two themes of the customizations of the settings. *)
Local Abbreviation globalRules vscode :=
  (fromRules (textMateRulesOf (tokenColorCustomizations vscode))).
Local Abbreviation themeRules vscode themeName :=
  (fromRules
     (textMateRulesOf (tokenColorCustomizationsGet vscode ("[" ++ themeName ++ "]")))).

Lemma loadThemeNamed_Some host vscode fuel themeName loaded :
  loadThemeNamed host vscode fuel themeName = Some loaded ->
  exists files,
    mergeThemeFiles host fuel (themePaths host vscode themeName) (Some newColorTheme)
    = Some files
    /\ loaded
       = mergeFrom (mergeFrom files (globalRules vscode)) (themeRules vscode themeName).
Proof.
  unfold loadThemeNamed.
  destruct (mergeThemeFiles _ _ _ _) as [files|]; [|discriminate].
  intros [= <-]. now exists files.
Qed.

(** *** The order of precedence *)

(** X20. A field that the customizations for the theme define for a scope is
    the field of the loaded theme for this scope, whatever the theme
    files and the global customizations say. *)
Theorem theme_customizations_win host vscode fuel themeName loaded key custom
    field c :
  loadThemeNamed host vscode fuel themeName = Some loaded ->
  stored (themeRules vscode themeName) key = Some custom ->
  In field [foreground; background; fontStyle] ->
  field custom = Some c ->
  exists merged, stored loaded key = Some merged /\ field merged = Some c.
Proof.
  intros Hload Hcustom Hfield Hc.
  apply loadThemeNamed_Some in Hload. destruct Hload as (files & _ & ->).
  eexists. split.
  - rewrite mergeFrom_fold.
    apply stored_merge_present; [apply wf_fromRules | exact Hcustom].
  - now apply field_of_override.
Qed.

Lemma theme_customizations_win_witness :
  exists loaded merged,
    loadThemeNamed MoreSamples.files MoreSamples.editor 2 "Dark" = Some loaded
    /\ stored loaded "comment" = Some merged
    /\ fontStyle merged = Some "underline".
Proof.
  destruct (theme_customizations_win MoreSamples.files MoreSamples.editor 2 "Dark"
              _ "comment" (mkSettings None None (Some "underline")) fontStyle
              "underline" eq_refl eq_refl
              (or_intror (or_intror (or_introl eq_refl))) eq_refl)
    as (merged & Hstored & Hfield).
  eexists. exists merged. split; [reflexivity|]. split; assumption.
Defined.

(** X21. A field that the global customizations define for a scope, and that
    the customizations for the theme do not define for it, is the field
    of the loaded theme, whatever the theme files say. *)
Theorem global_customizations_win host vscode fuel themeName loaded key custom
    field c :
  loadThemeNamed host vscode fuel themeName = Some loaded ->
  stored (globalRules vscode) key = Some custom ->
  In field [foreground; background; fontStyle] ->
  field custom = Some c ->
  (forall forTheme, stored (themeRules vscode themeName) key = Some forTheme ->
     field forTheme = None) ->
  exists merged, stored loaded key = Some merged /\ field merged = Some c.
Proof.
  intros Hload Hcustom Hfield Hc Hnone.
  apply loadThemeNamed_Some in Hload. destruct Hload as (files & _ & ->).
  assert (Hglobal : stored (mergeFrom files (globalRules vscode)) key
                    = Some (mergeRuleSettings (stored files key) custom)).
  { rewrite mergeFrom_fold.
    apply stored_merge_present; [apply wf_fromRules | exact Hcustom]. }
  destruct (stored (themeRules vscode themeName) key) as [forTheme|] eqn:E.
  - eexists. split.
    + rewrite mergeFrom_fold.
      apply stored_merge_present; [apply wf_fromRules | exact E].
    + rewrite Hglobal.
      rewrite field_of_default by (auto; now apply Hnone).
      now apply field_of_override.
  - eexists. split.
    + rewrite mergeFrom_fold, stored_merge_absent by (now apply get_None).
      exact Hglobal.
    + now apply field_of_override.
Qed.

Lemma global_customizations_win_witness :
  exists loaded merged,
    loadThemeNamed MoreSamples.files MoreSamples.editor 2 "Dark" = Some loaded
    /\ stored loaded "comment" = Some merged
    /\ foreground merged = Some "#00ff00".
Proof.
  destruct (global_customizations_win MoreSamples.files MoreSamples.editor 2 "Dark"
              _ "comment" Samples.greenBold foreground "#00ff00" eq_refl eq_refl
              (or_introl eq_refl) eq_refl)
    as (merged & Hstored & Hfield).
  - intros forTheme [= <-]. reflexivity.
  - eexists. exists merged. split; [reflexivity|]. split; assumption.
Defined.

(** *** Without an installed theme of the name *)

Lemma flat_map_nil {X Y : Type} (f : X -> list Y) (l : list X) :
  (forall x, In x l -> f x = []) -> flat_map f l = [].
Proof.
  induction l as [|x l IH]; intros Hall; simpl; [reflexivity|].
  rewrite (Hall x) by now left. apply IH. intros y Hy. apply Hall. now right.
Qed.

Lemma filter_nil {X : Type} (f : X -> bool) (l : list X) :
  (forall x, In x l -> f x = false) -> filter f l = [].
Proof.
  induction l as [|x l IH]; intros Hall; simpl; [reflexivity|].
  rewrite (Hall x) by now left. apply IH. intros y Hy. apply Hall. now right.
Qed.

Lemma themePaths_nil host vscode themeName :
  (forall ext it, In ext (all vscode) -> isTheme ext = true ->
     In it (themesOf ext) -> isNamed themeName it = false) ->
  themePaths host vscode themeName = [].
Proof.
  intros Hnone. unfold themePaths. apply flat_map_nil.
  intros ext Hext. apply filter_In in Hext. destruct Hext as [Hin Hkind].
  rewrite filter_nil; [reflexivity|].
  intros it Hit. now apply (Hnone ext).
Qed.

(** X22. When no installed extension of the UI kind contributes a theme of the
    name (extensions of the workspace kind are not looked at), no file is
    read and the theme is the global customizations with the
    customizations for the theme merged over them. *)
Theorem loadThemeNamed_customizations_only host vscode fuel themeName :
  (forall ext it, In ext (all vscode) -> isTheme ext = true ->
     In it (themesOf ext) -> isNamed themeName it = false) ->
  themePaths host vscode themeName = []
  /\ loadThemeNamed host vscode fuel themeName
     = Some (mergeFrom (globalRules vscode) (themeRules vscode themeName)).
Proof.
  intros Hnone. pose proof (themePaths_nil host vscode themeName Hnone) as Hpaths.
  split; [exact Hpaths|].
  unfold loadThemeNamed. rewrite Hpaths. cbn [mergeThemeFiles fold_left].
  now rewrite MergeLaws.mergeFrom_empty_l by apply wf_fromRules.
Qed.

Lemma loadThemeNamed_customizations_only_witness :
  loadThemeNamed MoreSamples.files MoreSamples.remoteEditor 0 "Dark"
  = Some (mkTheme [("comment", mkSettings (Some "#00ff00") None (Some "underline"))]).
Proof.
  refine (proj2 (loadThemeNamed_customizations_only MoreSamples.files
                   MoreSamples.remoteEditor 0 "Dark" _)).
  simpl. intros ext it [<-|[]] Hkind. discriminate.
Defined.

End WorkbenchFacts.

(** ** Further facts about the retrying request sender *)
Module SenderLaws.

Import Ctx.
Import CtxFacts.

Section Sender.

Context {Param Token R : Type}.
Variable ContentModified : Z.
Variable client : LanguageClient Param Token R.
Variable method : string.
Variable param : Param.
Variable token : option Token.

Local Abbreviation retryLoop' := (retryLoop ContentModified client method param token).
Local Abbreviation sendRequestWithRetry' :=
  (sendRequestWithRetry ContentModified client method param token).
Local Abbreviation rejectedAsModified' :=
  (rejectedAsModified ContentModified client method param token).
Local Abbreviation sent := (Sent method param token).
Local Abbreviation retried := (Ctx.retried method param token).
Local Abbreviation answer w n := (sendRequest client method param token (issued w + n)).

(** *** Every run of the loop *)

(** A run over the delays [ds] and a last turn without delay: [j]
    attempts are rejected as "content modified" and retried, and the
    answer to the next one is the outcome of the run. *)
Lemma retryLoop_run (ds : list Z) (w : World Param Token) :
  exists j,
    (j <= List.length ds)%nat
    /\ (forall n, (n < j)%nat -> rejectedAsModified' w n)
    /\ snd (retryLoop' (map Some ds ++ [None])%list w)
       = mkWorld (issued w + S j) (log w ++ retried (firstn j ds) ++ [sent])
    /\ match answer w j with
       | Resolved result =>
           fst (retryLoop' (map Some ds ++ [None])%list w) = Return result
       | Rejected err =>
           fst (retryLoop' (map Some ds ++ [None])%list w) = Throw (ThrownError err)
           /\ (j = List.length ds \/ ~ isContentModified ContentModified err)
       end.
Proof.
  revert w. induction ds as [|d ds IH]; intros w.
  - exists 0%nat. split; [reflexivity|]. split; [intros n Hn; lia|].
    rewrite Nat.add_0_r, Nat.add_1_r. cbn [map app firstn].
    destruct (sendRequest client method param token (issued w)) as [result|err] eqn:E.
    + rewrite (retryLoop_resolved _ _ _ _ _ _ _ _ result E). now split.
    + rewrite (retryLoop_last _ _ _ _ _ _ err E). split; [reflexivity|].
      split; [reflexivity | now left].
  - cbn [map app].
    destruct (sendRequest client method param token (issued w)) as [result|err] eqn:E.
    + exists 0%nat. split; [lia|]. split; [intros n Hn; lia|].
      rewrite Nat.add_0_r, Nat.add_1_r, E.
      rewrite (retryLoop_resolved _ _ _ _ _ _ _ _ result E). now split.
    + destruct (Js.strictEq (code err) (Js.Number ContentModified)) eqn:Hcode.
      * apply strictEq_spec in Hcode.
        rewrite (retryLoop_retry _ _ _ _ _ d _ w err E Hcode).
        destruct (IH (sleep (backoff (Some d))
                        (mkWorld (S (issued w)) (log w ++ [sent]))))
          as (j & Hj & Hall & Hworld & Hout).
        cbn [sleep issued log] in Hall, Hworld, Hout.
        exists (S j). split; [simpl; lia|]. split; [|split].
        -- intros [|n] Hn.
           ++ exists err. rewrite Nat.add_0_r. now split.
           ++ destruct (Hall n) as (e & He & Hk); [lia|].
              exists e. split; [|exact Hk].
              rewrite <- He. cbn [sleep issued]. f_equal. lia.
        -- rewrite Hworld. f_equal; [lia|].
           cbn [firstn]. unfold Ctx.retried. cbn [flat_map].
           now rewrite <- !app_assoc.
        -- replace (issued w + S j)%nat with (S (issued w) + j)%nat by lia.
           destruct (sendRequest client method param token (S (issued w) + j))
             as [result|err'].
           ++ exact Hout.
           ++ destruct Hout as [Hfst Hwhy]. split; [exact Hfst|].
              destruct Hwhy as [->|Hwhy]; [now left | now right].
      * assert (Hkind : ~ isContentModified ContentModified err).
        { intros Hk. apply strictEq_spec in Hk. congruence. }
        exists 0%nat. split; [lia|]. split; [intros n Hn; lia|].
        rewrite Nat.add_0_r, Nat.add_1_r, E.
        rewrite (retryLoop_fatal _ _ _ _ _ _ _ w err E Hkind).
        split; [reflexivity|]. split; [reflexivity | now right].
Qed.

(** The same for the delays of [sendRequestWithRetry]. *)
Lemma sendRequestWithRetry_run (w : World Param Token) :
  exists j,
    (j <= 5)%nat
    /\ (forall n, (n < j)%nat -> rejectedAsModified' w n)
    /\ snd (sendRequestWithRetry' w)
       = mkWorld (issued w + S j)
           (log w ++ retried (firstn j [2; 4; 6; 8; 10]) ++ [sent])
    /\ match answer w j with
       | Resolved result => fst (sendRequestWithRetry' w) = Return result
       | Rejected err =>
           fst (sendRequestWithRetry' w) = Throw (ThrownError err)
           /\ (j = 5%nat \/ ~ isContentModified ContentModified err)
       end.
Proof. exact (retryLoop_run [2; 4; 6; 8; 10] w). Qed.

(** *** What every call does *)

(** X1. Whatever the client answers, a call issues between 1 and 6 requests,
    all with the method, the parameter and the token it was given; it
    sleeps after each request but the last, for the delays of the
    schedule in their order; and it adds this to the log without
    touching what was there. *)
Theorem sendRequestWithRetry_shape (w : World Param Token) :
  exists k,
    (1 <= k <= 6)%nat
    /\ issued (snd (sendRequestWithRetry' w)) = (issued w + k)%nat
    /\ log (snd (sendRequestWithRetry' w))
       = (log w ++ retried (firstn (k - 1) [2; 4; 6; 8; 10]) ++ [sent])%list.
Proof.
  destruct (sendRequestWithRetry_run w) as (j & Hj & _ & Hworld & _).
  exists (S j). split; [lia|]. rewrite Hworld. cbn [issued log].
  split; [reflexivity|]. now replace (S j - 1)%nat with j by lia.
Qed.

(** The time of the sleeps of a log, in milliseconds. *)
Local Abbreviation total sleeps := (fold_right Z.add 0 sleeps).

(** X3. Whatever the client answers, a call issues at most 6 requests, sleeps
    once less than it issues requests, and sleeps for at most 13640
    milliseconds in all. *)
Theorem sendRequestWithRetry_effort (w : World Param Token) :
  exists events,
    log (snd (sendRequestWithRetry' w)) = (log w ++ events)%list
    /\ (1 <= requestsIn events <= 6)%nat
    /\ S (List.length (sleepsIn events)) = requestsIn events
    /\ 0 <= total (sleepsIn events) <= 13640.
Proof.
  destruct (sendRequestWithRetry_run w) as (j & Hj & _ & Hworld & _).
  exists (retried (firstn j [2; 4; 6; 8; 10]) ++ [sent])%list.
  rewrite Hworld. cbn [log]. split; [reflexivity|].
  do 6 (destruct j as [|j];
        [split; [vm_compute; lia
                | split; [reflexivity | vm_compute; split; discriminate]]|]).
  lia.
Qed.

(** X4. The outcome of a call is the answer to the last request it issued: a
    returned result is the result of that request, and a thrown value is
    the error that request was rejected with. *)
Theorem sendRequestWithRetry_outcome (w : World Param Token) :
  let last := (issued (snd (sendRequestWithRetry' w)) - 1)%nat in
  match fst (sendRequestWithRetry' w) with
  | Return result =>
      sendRequest client method param token last = Resolved result
  | Throw t =>
      exists err,
        t = ThrownError err
        /\ sendRequest client method param token last = Rejected err
  end.
Proof.
  destruct (sendRequestWithRetry_run w) as (j & _ & _ & Hworld & Hout).
  rewrite Hworld. cbn [issued].
  replace (issued w + S j - 1)%nat with (issued w + j)%nat by lia.
  destruct (sendRequest client method param token (issued w + j)) as [result|err].
  - now rewrite Hout.
  - destruct Hout as [-> _]. now exists err.
Qed.

(** X5. Every request of a call but the last one was rejected as "content
    modified": nothing else makes the sender try again. *)
Theorem sendRequestWithRetry_retries_only_modified (w : World Param Token) (n : nat) :
  (S (issued w + n) < issued (snd (sendRequestWithRetry' w)))%nat ->
  rejectedAsModified' w n.
Proof.
  destruct (sendRequestWithRetry_run w) as (j & _ & Hall & Hworld & _).
  rewrite Hworld. cbn [issued]. intros Hn. apply Hall. lia.
Qed.

(** X6. When the attempts before the k-th, k from 1 to 6, are rejected as
    "content modified" and the k-th is rejected with another error, this
    error is thrown at once: k requests, the sleeps of the first k - 1
    delays, and nothing after the k-th request. *)
Theorem sendRequestWithRetry_fatal_error (w : World Param Token) (k : nat)
    (err : ResponseError) :
  (1 <= k <= 6)%nat ->
  (forall n, (n < k - 1)%nat -> rejectedAsModified' w n) ->
  sendRequest client method param token (issued w + (k - 1)) = Rejected err ->
  ~ isContentModified ContentModified err ->
  sendRequestWithRetry' w
  = (Throw (ThrownError err),
     mkWorld (issued w + k)
       (log w ++ retried (firstn (k - 1) [2; 4; 6; 8; 10]) ++ [sent])).
Proof.
  intros Hk Hall Hrej Hkind.
  destruct k as [|j]; [lia|].
  replace (S j - 1)%nat with j in * by lia.
  assert (Hj : (j <= 5)%nat) by lia.
  assert (Hlen : List.length (firstn j [2; 4; 6; 8; 10]) = j).
  { rewrite length_firstn. simpl. lia. }
  unfold sendRequestWithRetry. rewrite (delays_split j Hj).
  rewrite retryLoop_all_modified by (rewrite Hlen; exact Hall).
  rewrite (retryLoop_fatal _ _ _ _ _ _ _ _ err)
    by (cbn [issued]; rewrite ?Hlen; assumption).
  cbn [issued log]. rewrite Hlen, <- app_assoc.
  now replace (S (issued w + j)) with (issued w + S j)%nat by lia.
Qed.

End Sender.

(** *** The delays *)

(** X7. For an exponent from 0 to 30 the delay [10 * (1 << d)] is 10 * 2^d
    milliseconds; the shift count is taken modulo 32, so that the
    exponent d + 32 gives the same delay as d. *)
Theorem backoff_exact (d : Z) :
  0 <= d < 31 ->
  backoff (Some d) = 10 * 2 ^ d /\ backoff (Some (d + 32)) = 10 * 2 ^ d.
Proof.
  intros Hd. split; [now apply backoff_pow|].
  rewrite <- (backoff_pow d Hd). unfold backoff, Js.shl. do 3 f_equal.
  change 31 with (Z.ones 5). rewrite !Z.land_ones by lia.
  change (2 ^ 5) with 32.
  rewrite <- (Z.mul_1_l 32) at 1. apply Z.mod_add. lia.
Qed.

Lemma backoff_exact_witness :
  0 <= 10 < 31 /\ backoff (Some 10) = 10240 /\ backoff (Some 42) = 10240.
Proof.
  assert (H : 0 <= 10 < 31) by lia.
  split; [exact H|]. exact (backoff_exact 10 H).
Defined.

(** *** The facts on the sample clients *)

Import Samples.

Lemma sendRequestWithRetry_retries_only_modified_witness :
  (S (issued (@freshWorld unit unit) + 1)
   < issued (snd (sendRequestWithRetry contentModified modifiedTwice
                    "textDocument/hover" tt None freshWorld)))%nat
  /\ rejectedAsModified contentModified modifiedTwice "textDocument/hover" tt None
       freshWorld 1.
Proof.
  assert (H : (S (issued (@freshWorld unit unit) + 1)
               < issued (snd (sendRequestWithRetry contentModified modifiedTwice
                                "textDocument/hover" tt None freshWorld)))%nat)
    by (vm_compute; lia).
  split; [exact H|].
  exact (sendRequestWithRetry_retries_only_modified contentModified modifiedTwice
           "textDocument/hover" tt None freshWorld 1 H).
Defined.

(** A request that is cancelled on its third attempt. *)
Lemma sendRequestWithRetry_fatal_error_witness :
  let client :=
    mkClient (fun (_ : string) (_ : unit) (_ : option unit) n =>
                if (n <? 2)%nat then @Rejected string modifiedError
                else Rejected cancelledError) in
  sendRequestWithRetry contentModified client "textDocument/hover" tt None freshWorld
  = (Throw (ThrownError cancelledError),
     mkWorld 3 [Sent "textDocument/hover" tt None; Slept 40;
                Sent "textDocument/hover" tt None; Slept 160;
                Sent "textDocument/hover" tt None]).
Proof.
  intros client.
  refine (sendRequestWithRetry_fatal_error contentModified client
            "textDocument/hover" tt None freshWorld 3 cancelledError _ _ eq_refl _).
  - lia.
  - intros n Hn. exists modifiedError. split; [|reflexivity].
    simpl in Hn. simpl. destruct (Nat.ltb_spec n 2); [reflexivity | lia].
  - unfold isContentModified. simpl. discriminate.
Defined.

End SenderLaws.
